(** * blog_auto_scan: date normalisation, post extraction and latest-post selection

    A shallow embedding of [scripts/blog_auto_scan.py].

    - Strings are Rocq [string]s; a character is a code point below 256.
    - [datetime.strptime] is embedded for the directives the script uses
      (%Y %m %d %B %b) with the backtracking order of the regular expression
      that [_strptime] builds from a format.
    - A parsed page is a tree of elements and text nodes; a tag handed out by
      [find]/[find_all] carries its parent, as a BeautifulSoup [Tag] does.
    - [main] threads the effects it has (file written, line printed) and the
      exception that ends it. *)

From Stdlib Require Import String Ascii List Arith Bool Lia.
From Stdlib Require Import Decimal DecimalString.
Import ListNotations.
Open Scope string_scope.
Open Scope list_scope.
Open Scope nat_scope.
Set Warnings "-abstract-large-number,-register-all".

(** ** Characters and strings *)

Module Str.

(** [str.isspace] / the regex class \s on code points below 256. *)
Definition isspace (c : ascii) : bool :=
  let n := nat_of_ascii c in
  ((9 <=? n) && (n <=? 13)) || ((28 <=? n) && (n <=? 32))
  || (n =? 133) || (n =? 160).

(** The regex class \d on code points below 256. *)
Definition isdigit (c : ascii) : bool :=
  let n := nat_of_ascii c in (48 <=? n) && (n <=? 57).

Definition digit_val (c : ascii) : nat := nat_of_ascii c - 48.

(** Case folding of the letters A-Z, enough for the English month names. *)
Definition lower_char (c : ascii) : ascii :=
  let n := nat_of_ascii c in
  if (65 <=? n) && (n <=? 90) then ascii_of_nat (n + 32) else c.

Fixpoint lower (s : string) : string :=
  match s with
  | EmptyString => EmptyString
  | String c s' => String (lower_char c) (lower s')
  end.

Fixpoint lstrip (s : string) : string :=
  match s with
  | EmptyString => EmptyString
  | String c s' => if isspace c then lstrip s' else s
  end.

Fixpoint rstrip (s : string) : string :=
  match s with
  | EmptyString => EmptyString
  | String c s' =>
      let r := rstrip s' in
      if isspace c && String.eqb r "" then EmptyString else String c r
  end.

(** [str.strip()] with no argument. *)
Definition strip (s : string) : string := rstrip (lstrip s).

Fixpoint all_space (s : string) : bool :=
  match s with
  | EmptyString => true
  | String c s' => isspace c && all_space s'
  end.

Definition first_char (s : string) : option ascii :=
  match s with
  | EmptyString => None
  | String c _ => Some c
  end.

Fixpoint last_char (s : string) : option ascii :=
  match s with
  | EmptyString => None
  | String c EmptyString => Some c
  | String _ s' => last_char s'
  end.

Definition is_space_opt (o : option ascii) : bool :=
  match o with
  | Some c => isspace c
  | None => false
  end.

(** Python truthiness of a [str]. *)
Definition nonempty (s : string) : bool := negb (String.eqb s "").

(** [str(n)] for a non-negative [int]. *)
Definition of_nat (n : nat) : string := NilZero.string_of_uint (Nat.to_uint n).

End Str.

(** ** The date normaliser *)

Module DateNormalizer.

(** A [datetime] built by [strptime] from a format without time directives:
    hour, minute, second and microsecond are 0 and there is no tzinfo, so the
    value is its calendar date. *)
Record datetime := mk_datetime { year : nat; month : nat; day : nat }.

(** [a < b] on naive datetimes: lexicographic on year, month, day. *)
Definition dt_ltb (a b : datetime) : bool :=
  (year a <? year b)
  || ((year a =? year b)
      && ((month a <? month b) || ((month a =? month b) && (day a <? day b)))).

(** [a > b]. *)
Definition dt_gtb (a b : datetime) : bool := dt_ltb b a.

Definition is_leap (y : nat) : bool :=
  (y mod 4 =? 0) && (negb (y mod 100 =? 0) || (y mod 400 =? 0)).

Definition days_in_month (y m : nat) : nat :=
  match m with
  | 2 => if is_leap y then 29 else 28
  | 4 | 6 | 9 | 11 => 30
  | _ => 31
  end.

(** The range checks of the [date] constructor (MINYEAR = 1, MAXYEAR = 9999). *)
Definition valid_date (y m d : nat) : bool :=
  (1 <=? y) && (y <=? 9999) && (1 <=? m) && (m <=? 12)
  && (1 <=? d) && (d <=? days_in_month y m).

(** *** The regular expression of a format

    [TimeRE.pattern] turns every run of whitespace of the format into \s+,
    every directive into a named group, and leaves other characters as
    literals; the pattern is compiled with IGNORECASE. *)

Definition charclass := ascii -> bool.

Inductive token :=
| TGroup (name : ascii) (alts : list (list charclass))
| TSpaces
| TLit (c : ascii).

Definition is_char (c : ascii) : charclass := fun x => Ascii.eqb x c.

Definition in_range (lo hi : ascii) : charclass :=
  fun x => (nat_of_ascii lo <=? nat_of_ascii x) && (nat_of_ascii x <=? nat_of_ascii hi).

(** A literal under IGNORECASE. *)
Definition ci_char (c : ascii) : charclass :=
  fun x => Ascii.eqb (Str.lower_char x) (Str.lower_char c).

Fixpoint ci_word (w : string) : list charclass :=
  match w with
  | EmptyString => []
  | String c w' => ci_char c :: ci_word w'
  end.

(** [LocaleTime.f_month] and [LocaleTime.a_month] in the C locale. *)
Definition f_month : list string :=
  [""; "january"; "february"; "march"; "april"; "may"; "june"; "july";
   "august"; "september"; "october"; "november"; "december"].

Definition a_month : list string :=
  [""; "jan"; "feb"; "mar"; "apr"; "may"; "jun"; "jul";
   "aug"; "sep"; "oct"; "nov"; "dec"].

(** [sorted(to_convert, key=len, reverse=True)]: longest first, and names of
    one length keep their order. *)
Fixpoint insert_by_len (w : string) (l : list string) : list string :=
  match l with
  | [] => [w]
  | x :: l' =>
      if String.length x <=? String.length w then w :: l
      else x :: insert_by_len w l'
  end.

Fixpoint sort_by_len (l : list string) : list string :=
  match l with
  | [] => []
  | w :: l' => insert_by_len w (sort_by_len l')
  end.

Definition seqToRE (names : list string) : list (list charclass) :=
  map ci_word (sort_by_len names).

(** The entries of [TimeRE] for the five directives in use. *)
Definition directive (d : ascii) : option token :=
  if Ascii.eqb d "Y" then
    Some (TGroup "Y" [[Str.isdigit; Str.isdigit; Str.isdigit; Str.isdigit]])
  else if Ascii.eqb d "m" then
    Some (TGroup "m" [[is_char "1"; in_range "0" "2"];
                      [is_char "0"; in_range "1" "9"];
                      [in_range "1" "9"]])
  else if Ascii.eqb d "d" then
    Some (TGroup "d" [[is_char "3"; in_range "0" "1"];
                      [in_range "1" "2"; Str.isdigit];
                      [is_char "0"; in_range "1" "9"];
                      [in_range "1" "9"];
                      [is_char " "; in_range "1" "9"]])
  else if Ascii.eqb d "B" then Some (TGroup "B" (seqToRE (tl f_month)))
  else if Ascii.eqb d "b" then Some (TGroup "b" (seqToRE (tl a_month)))
  else None.

(** [TimeRE.pattern]; [in_ws] tells that the previous character of the format
    was whitespace already turned into \s+.  The formats of the script use
    the five directives above only; for another character after %, or a % at
    the end, the result is [None], the ValueError [_strptime] raises for an
    unknown directive or a stray %. *)
Fixpoint pattern (in_ws : bool) (format : string) : option (list token) :=
  match format with
  | EmptyString => Some []
  | String c rest =>
      if Str.isspace c then
        match pattern true rest with
        | Some ts => Some (if in_ws then ts else TSpaces :: ts)
        | None => None
        end
      else if Ascii.eqb c "%" then
        match rest with
        | EmptyString => None
        | String d rest' =>
            match directive d, pattern false rest' with
            | Some t, Some ts => Some (t :: ts)
            | _, _ => None
            end
        end
      else
        match pattern false rest with
        | Some ts => Some (TLit c :: ts)
        | None => None
        end
  end.

(** *** Backtracking match

    Every function lists the ways to match at the start of the subject, in
    the order a backtracking matcher explores them; [re.match] takes the
    first. *)

Fixpoint match_classes (cls : list charclass) (s : string) : option (string * string) :=
  match cls with
  | [] => Some (EmptyString, s)
  | p :: cls' =>
      match s with
      | EmptyString => None
      | String c s' =>
          if p c then
            match match_classes cls' s' with
            | Some (m, r) => Some (String c m, r)
            | None => None
            end
          else None
      end
  end.

Fixpoint match_alts (alts : list (list charclass)) (s : string) : list (string * string) :=
  match alts with
  | [] => []
  | a :: alts' =>
      match match_classes a s with
      | Some mr => mr :: match_alts alts' s
      | None => match_alts alts' s
      end
  end.

(** \s+ is greedy: the longest run first, then shorter ones. *)
Fixpoint match_spaces (s : string) : list string :=
  match s with
  | EmptyString => []
  | String c s' => if Str.isspace c then match_spaces s' ++ [s'] else []
  end.

Definition groups := list (ascii * string).

Definition match_token (t : token) (s : string) : list (groups * string) :=
  match t with
  | TGroup name alts => map (fun mr => ([(name, fst mr)], snd mr)) (match_alts alts s)
  | TSpaces => map (fun r => ([], r)) (match_spaces s)
  | TLit c =>
      match s with
      | EmptyString => []
      | String x s' => if ci_char c x then [([], s')] else []
      end
  end.

Fixpoint match_tokens (ts : list token) (s : string) : list (groups * string) :=
  match ts with
  | [] => [([], s)]
  | t :: ts' =>
      flat_map
        (fun gr => map (fun gr' => (fst gr ++ fst gr', snd gr')) (match_tokens ts' (snd gr)))
        (match_token t s)
  end.

(** *** Conversion of the groups *)

(** [int(s)] on a group of digits, possibly after blanks. *)
Fixpoint int_acc (acc : nat) (s : string) : nat :=
  match s with
  | EmptyString => acc
  | String c s' => if Str.isdigit c then int_acc (10 * acc + Str.digit_val c) s' else int_acc acc s'
  end.

Definition int (s : string) : nat := int_acc 0 s.

(** [list.index]. *)
Fixpoint index (x : string) (l : list string) : option nat :=
  match l with
  | [] => None
  | y :: l' => if String.eqb x y then Some 0 else option_map S (index x l')
  end.

Record fields := mk_fields { f_year : option nat; f_month_ : nat; f_day : nat }.

Definition convert_group (fs : option fields) (g : ascii * string) : option fields :=
  match fs with
  | None => None
  | Some f =>
      let (name, v) := g in
      if Ascii.eqb name "Y" then Some (mk_fields (Some (int v)) (f_month_ f) (f_day f))
      else if Ascii.eqb name "m" then Some (mk_fields (f_year f) (int v) (f_day f))
      else if Ascii.eqb name "B" then
        option_map (fun i => mk_fields (f_year f) i (f_day f)) (index (Str.lower v) f_month)
      else if Ascii.eqb name "b" then
        option_map (fun i => mk_fields (f_year f) i (f_day f)) (index (Str.lower v) a_month)
      else if Ascii.eqb name "d" then Some (mk_fields (f_year f) (f_month_ f) (int v))
      else Some f
  end.

Inductive ValueError := BadDirective | NoMatch | UnconvertedData | OutOfRange.

(** [datetime.strptime(data_string, format)]. *)
Definition strptime (data_string format : string) : ValueError + datetime :=
  match pattern false format with
  | None => inl BadDirective
  | Some ts =>
      match match_tokens ts data_string with
      | [] => inl NoMatch
      | (gs, rest) :: _ =>
          if Str.nonempty rest then inl UnconvertedData
          else
            match fold_left convert_group gs (Some (mk_fields None 1 1)) with
            | None => inl OutOfRange
            | Some f =>
                (* without a year the day is checked in 1904 for 29 February
                   and in 1900 otherwise, and the result is built in 1900 *)
                let y_check :=
                  match f_year f with
                  | Some y => y
                  | None => if (f_month_ f =? 2) && (f_day f =? 29) then 1904 else 1900
                  end in
                let y :=
                  match f_year f with
                  | Some y => y
                  | None => 1900
                  end in
                if valid_date y_check (f_month_ f) (f_day f)
                   && valid_date y (f_month_ f) (f_day f)
                then inr (mk_datetime y (f_month_ f) (f_day f))
                else inl OutOfRange
            end
      end
  end.

(** The formats of [parse_post_date], in the order of its tuple. *)
Definition FORMATS : list string :=
  ["%Y-%m-%d"; "%d %B %Y"; "%B %d, %Y"; "%d %b %Y"; "%b %d, %Y"].

(** The [for fmt in (...)] loop: return at the first format that parses,
    continue on ValueError, [None] after the last. *)
Fixpoint try_formats (fmts : list string) (text : string) : option datetime :=
  match fmts with
  | [] => None
  | fmt :: fmts' =>
      match strptime (Str.strip text) fmt with
      | inr dt => Some dt
      | inl _ => try_formats fmts' text
      end
  end.

Definition parse_post_date (text : string) : option datetime :=
  try_formats FORMATS text.

End DateNormalizer.

(** ** The parsed page *)

Module Dom.

(** The tree BeautifulSoup builds: text nodes and elements with their
    attributes and children.  The root is the soup object itself, an element
    named [document] in brackets.  Comments and the strings of script and
    style elements, which [get_text] leaves out, are not part of the tree. *)
Inductive node :=
| Text (s : string)
| Elem (name : string) (attrs : list (string * string)) (children : list node).

(** An element as the search functions hand it out: with its [.parent]. *)
Record Tag := mk_tag { elem : node; parent : option node }.

Definition soup (children : list node) : node := Elem "[document]" [] children.

Definition name_of (n : node) : option string :=
  match n with
  | Text _ => None
  | Elem nm _ _ => Some nm
  end.

Definition attrs_of (n : node) : list (string * string) :=
  match n with
  | Text _ => []
  | Elem _ a _ => a
  end.

(** [.descendants]: every node below [p], in document order (an element
    before its children, siblings left to right). *)
Fixpoint descendants (p : node) : list Tag :=
  match p with
  | Text _ => []
  | Elem _ _ cs => flat_map (fun c => mk_tag c (Some p) :: descendants c) cs
  end.

Fixpoint mem (x : string) (l : list string) : bool :=
  match l with
  | [] => false
  | y :: l' => String.eqb x y || mem x l'
  end.

Definition named (names : list string) (t : Tag) : bool :=
  match name_of (elem t) with
  | Some nm => mem nm names
  | None => false
  end.

(** [tag.find_all(names)]. *)
Definition find_all (names : list string) (n : node) : list Tag :=
  filter (named names) (descendants n).

(** [tag.find(names)]: the first result of [find_all], or [None]. *)
Definition find (names : list string) (n : node) : option Tag :=
  hd_error (find_all names n).

(** [tag.has_attr(k)] and [tag.get(k)] / [tag[k]] when it has. *)
Fixpoint get_attr (k : string) (attrs : list (string * string)) : option string :=
  match attrs with
  | [] => None
  | (k', v) :: attrs' => if String.eqb k k' then Some v else get_attr k attrs'
  end.

(** The strings [get_text(strip=True)] joins: each text below the node,
    stripped, those that strip to nothing left out. *)
Fixpoint stripped_strings (n : node) : list string :=
  match n with
  | Text s => if Str.nonempty (Str.strip s) then [Str.strip s] else []
  | Elem _ _ cs => flat_map stripped_strings cs
  end.

(** [tag.get_text(strip=True)]. *)
Definition get_text (n : node) : string :=
  match n with
  | Text s => Str.strip s
  | Elem _ _ _ => String.concat "" (stripped_strings n)
  end.

End Dom.

(** ** The post extractor *)

Module Extractor.

Import Dom.

(** A post dictionary: the keys "title", "date" and "url", each a string or
    [None]. *)
Record post := mk_post { title : option string; date : option string; url : option string }.

Definition HEADINGS : list string := ["h1"; "h2"; "h3"; "h4"; "h5"; "h6"].

(** The element [add_post] searches for a time tag: the tag itself if it is
    an article, else its parent. *)
Definition scope_of (title_tag : Tag) : option node :=
  if named ["article"] title_tag then Some (elem title_tag) else parent title_tag.

(** The date text read off a scope: the datetime attribute of its first time
    element if it has one, else that element's text; [None] without a time
    element. *)
Definition date_text_in (scope : option node) : option string :=
  match scope with
  | None => None
  | Some p =>
      match find ["time"] p with
      | None => None
      | Some time_tag =>
          match get_attr "datetime" (attrs_of (elem time_tag)) with
          | Some v => Some v
          | None => Some (get_text (elem time_tag))
          end
      end
  end.

(** The dictionary [add_post] builds for a tag. *)
Definition make_post (title_tag : Tag) : post :=
  let link_tag := find ["a"] (elem title_tag) in
  let title :=
    match link_tag with
    | Some l => get_text (elem l)
    | None => get_text (elem title_tag)
    end in
  let permalink :=
    match link_tag with
    | Some l => get_attr "href" (attrs_of (elem l))
    | None => None
    end in
  mk_post (Some title) (date_text_in (scope_of title_tag)) permalink.

(** [add_post]: nothing for [None], else one dictionary appended to [posts]. *)
Definition add_post (title_tag : option Tag) (posts : list post) : list post :=
  match title_tag with
  | None => posts
  | Some t => posts ++ [make_post t]
  end.

(** The first loop: over the articles, each with its first heading. *)
Definition scan_articles (articles : list Tag) (posts : list post) : list post :=
  fold_left (fun ps article => add_post (find HEADINGS (elem article)) ps) articles posts.

(** The second loop: over the h2 headings. *)
Definition scan_h2 (h2s : list Tag) (posts : list post) : list post :=
  fold_left (fun ps h2 => add_post (Some h2) ps) h2s posts.

Definition is_nil {A} (l : list A) : bool :=
  match l with
  | [] => true
  | _ => false
  end.

(** Whether the [if not posts:] branch is taken. *)
Definition tier2_runs (doc : node) : bool :=
  is_nil (scan_articles (find_all ["article"] doc) []).

(** The body of [extract_posts] from the parsed page on. *)
Definition extract (doc : node) : list post :=
  let posts := scan_articles (find_all ["article"] doc) [] in
  if is_nil posts then scan_h2 (find_all ["h2"] doc) posts else posts.

(** The two tiers stated apart from the loops.

    Tier 1: for each article container, in document order, the record of its
    first heading if it has one, nothing otherwise. *)
Definition article_record (article : Tag) : list post :=
  match find HEADINGS (elem article) with
  | Some heading => [make_post heading]
  | None => []
  end.

Definition tier1 (doc : node) : list post :=
  flat_map article_record (filter (named ["article"]) (descendants doc)).

(** Tier 2: the record of each level-2 heading, in document order. *)
Definition tier2 (doc : node) : list post :=
  map make_post (filter (named ["h2"]) (descendants doc)).

(** An article container with a heading. *)
Definition has_heading (article : Tag) : bool :=
  negb (is_nil (find_all HEADINGS (elem article))).

End Extractor.

(** ** Latest-post selection *)

Module Selection.

Import DateNormalizer Extractor.

(** The variables of the loop of [main], and the texts handed to
    [parse_post_date] so far (a trace, not a variable of the script). *)
Record sel := mk_sel {
  latest_title : string;
  latest_date : option datetime;
  parse_calls : list string
}.

Definition init : sel := mk_sel "None" None [].

(** Truthiness of [post["title"]] and [post["date"]]: a non-empty string. *)
Definition truthy (o : option string) : bool :=
  match o with
  | Some s => Str.nonempty s
  | None => false
  end.

(** [parse_post_date(post["date"]) if post["date"] else None]. *)
Definition parsed_date (p : post) : option datetime :=
  match date p with
  | Some d => if Str.nonempty d then parse_post_date d else None
  | None => None
  end.

(** The texts that expression passes to [parse_post_date]. *)
Definition parse_args (p : post) : list string :=
  match date p with
  | Some d => if Str.nonempty d then [d] else []
  | None => []
  end.

Definition is_none {A} (o : option A) : bool :=
  match o with
  | None => true
  | Some _ => false
  end.

(** [parsed and (latest_date is None or parsed > latest_date)]. *)
Definition later (parsed latest : option datetime) : bool :=
  match parsed, latest with
  | Some dt, None => true
  | Some dt, Some ld => dt_gtb dt ld
  | None, _ => false
  end.

(** One iteration of [for post in all_posts]. *)
Definition step (st : sel) (p : post) : sel :=
  match title p with
  | None => st
  | Some t =>
      if negb (Str.nonempty t) then st
      else
        let parsed := parsed_date p in
        let calls := parse_calls st ++ parse_args p in
        if later parsed (latest_date st) then mk_sel t parsed calls
        else if is_none (latest_date st) && String.eqb (latest_title st) "None"
        then mk_sel t (latest_date st) calls
        else mk_sel (latest_title st) (latest_date st) calls
  end.

Definition select_from (st : sel) (all_posts : list post) : sel :=
  fold_left step all_posts st.

Definition select (all_posts : list post) : sel := select_from init all_posts.

(** The line [main] prints. *)
Definition report (all_posts : list post) : string :=
  (Str.of_nat (List.length all_posts) ++ " posts found. Latest: "
   ++ latest_title (select all_posts))%string.

(** The title of a record, the empty string standing for an absent one. *)
Definition title_str (p : post) : string :=
  match title p with
  | Some t => t
  | None => EmptyString
  end.

(** The first record with a title, in accumulation order. *)
Definition first_titled (all_posts : list post) : option post :=
  List.find (fun p => truthy (title p)) all_posts.

(** The first record with a title other than the word None. *)
Definition first_named (all_posts : list post) : option post :=
  List.find (fun p => truthy (title p) && negb (String.eqb (title_str p) "None")) all_posts.

(** [a < b] as a proposition. *)
Definition dt_lt (a b : datetime) : Prop :=
  year a < year b
  \/ (year a = year b
      /\ (month a < month b \/ (month a = month b /\ day a < day b))).

(** What [select] has reached over [posts]: either no titled record parsed,
    or the record at [i] is the first among those with the latest date. *)
Definition first_latest (posts : list post) (st : sel) : Prop :=
  exists i p d,
    nth_error posts i = Some p
    /\ truthy (title p) = true
    /\ parsed_date p = Some d
    /\ latest_title st = title_str p
    /\ latest_date st = Some d
    /\ forall j q dq,
         nth_error posts j = Some q -> truthy (title q) = true ->
         parsed_date q = Some dq ->
         dt_gtb dq d = false /\ (j < i -> dt_ltb dq d = true).

Definition none_parsed (posts : list post) : Prop :=
  forall q, In q posts -> truthy (title q) = true -> parsed_date q = None.

End Selection.

(** ** The run *)

Module Main.

Import Dom Extractor Selection.

Inductive exn :=
| RequestException          (* raised by [requests.get]: DNS, connection, timeout *)
| HTTPError (status : nat)  (* raised by [raise_for_status] *)
| FileNotFoundError.        (* raised by [open] *)

Record response := mk_response { status_code : nat; text : string }.

(** [Response.raise_for_status]: client (4xx) and server (5xx) statuses raise. *)
Definition raise_for_status (r : response) : option exn :=
  if (400 <=? status_code r) && (status_code r <? 600)
  then Some (HTTPError (status_code r))
  else None.

(** What the run leaves behind: the exception that ended it, the list dumped
    to data/blog_posts.json if the file was opened, the lines printed, and
    the URLs requested in order. *)
Record outcome := mk_outcome {
  raised : option exn;
  written : option (list post);
  printed : list string;
  requested : list string
}.

Section Run.

(** The network: what the [k]-th [requests.get] of the run does for its URL. *)
Variable get : nat -> string -> exn + response.

(** [BeautifulSoup(markup, "html.parser")]. *)
Variable html_parser : string -> node.

(** Whether [open("data/blog_posts.json", "w")] succeeds. *)
Variable can_open : bool.

(** [extract_posts(url)], called as the [k]-th fetch. *)
Definition extract_posts (k : nat) (url : string) : exn + list post :=
  match get k url with
  | inl e => inl e
  | inr r =>
      match raise_for_status r with
      | Some e => inl e
      | None => inr (extract (html_parser (text r)))
      end
  end.

(** [for url in args.urls: all_posts.extend(extract_posts(url))], from the
    [k]-th fetch on; the second component lists the URLs requested. *)
Fixpoint fetch_all (k : nat) (urls : list string) (all_posts : list post)
  : (exn + list post) * list string :=
  match urls with
  | [] => (inr all_posts, [])
  | url :: urls' =>
      match extract_posts k url with
      | inl e => (inl e, [url])
      | inr ps =>
          let (r, reqs) := fetch_all (S k) urls' (all_posts ++ ps) in
          (r, url :: reqs)
      end
  end.

(** [main], after the arguments are parsed into [args.urls]. *)
Definition main (urls : list string) : outcome :=
  match fetch_all 0 urls [] with
  | (inl e, reqs) => mk_outcome (Some e) None [] reqs
  | (inr all_posts, reqs) =>
      if can_open
      then mk_outcome None (Some all_posts) [report all_posts] reqs
      else mk_outcome (Some FileNotFoundError) None [] reqs
  end.

(** A fetch that ends the run: [requests.get] raised, or the status is one
    [raise_for_status] rejects. *)
Definition fetch_fails (k : nat) (url : string) : bool :=
  match get k url with
  | inl _ => true
  | inr r => (400 <=? status_code r) && (status_code r <? 600)
  end.

End Run.

End Main.

(** ** Pages and runs as a whole *)

Module Pages.

Import Dom Extractor Main.

Section NodeInduction.

(** Induction on a page: a property of every child gives it for the element. *)
Variable P : node -> Prop.
Hypothesis P_text : forall s, P (Text s).
Hypothesis P_elem : forall nm attrs cs, Forall P cs -> P (Elem nm attrs cs).

Fixpoint node_forall_ind (n : node) : P n :=
  match n with
  | Text s => P_text s
  | Elem nm attrs cs =>
      P_elem nm attrs cs
        ((fix children (l : list node) : Forall P l :=
            match l with
            | [] => Forall_nil P
            | c :: l' => Forall_cons c (node_forall_ind c) (children l')
            end) cs)
  end.

End NodeInduction.

(** The records the [k]-th fetch contributes to [all_posts]. *)
Definition page_posts (get : nat -> string -> exn + response)
  (html_parser : string -> node) (k : nat) (url : string) : list post :=
  match extract_posts get html_parser k url with
  | inr ps => ps
  | inl _ => []
  end.

(** The records of the URLs, fetched from the [base]-th fetch on, in the
    order of the URLs. *)
Definition accumulated_from (get : nat -> string -> exn + response)
  (html_parser : string -> node) (base : nat) (urls : list string) : list post :=
  flat_map (fun ku => page_posts get html_parser (fst ku) (snd ku))
           (combine (seq base (List.length urls)) urls).

Definition accumulated (get : nat -> string -> exn + response)
  (html_parser : string -> node) (urls : list string) : list post :=
  accumulated_from get html_parser 0 urls.

(** [a <= b] on datetimes. *)
Definition dt_leb (a b : DateNormalizer.datetime) : bool :=
  negb (DateNormalizer.dt_ltb b a).

End Pages.

(** ** Texts of dates *)

Module DateTexts.

Import DateNormalizer.

(** Every character: the code points 0 to 255. *)
Definition all_ascii : list ascii := map ascii_of_nat (seq 0 256).

Definition isalpha (c : ascii) : bool :=
  let n := nat_of_ascii c in
  ((65 <=? n) && (n <=? 90)) || ((97 <=? n) && (n <=? 122)).

(** The characters a text with a date is made of: digits, letters, blanks,
    the hyphen and the comma. *)
Definition date_char : charclass :=
  fun c => Str.isdigit c || isalpha c || Str.isspace c
           || Ascii.eqb c "-" || Ascii.eqb c ",".

Fixpoint all_chars (p : charclass) (s : string) : bool :=
  match s with
  | EmptyString => true
  | String c s' => p c && all_chars p s'
  end.

(** Whether a class holds of characters of [allowed] only. *)
Definition class_within (allowed p : charclass) : bool :=
  forallb (fun c => implb (p c) (allowed c)) all_ascii.

Definition token_within (allowed : charclass) (t : token) : bool :=
  match t with
  | TGroup _ alts => forallb (forallb (class_within allowed)) alts
  | TSpaces => class_within allowed Str.isspace
  | TLit c => class_within allowed (ci_char c)
  end.

(** Whether a class does not tell a letter from its lower case. *)
Definition class_caseless (p : charclass) : bool :=
  forallb (fun c => Bool.eqb (p (Str.lower_char c)) (p c)) all_ascii.

Definition token_caseless (t : token) : bool :=
  match t with
  | TGroup _ alts => forallb (forallb class_caseless) alts
  | TSpaces => true
  | TLit _ => true
  end.

Definition lower_groups (gs : groups) : groups :=
  map (fun nv => (fst nv, Str.lower (snd nv))) gs.

Definition lower_result (gr : groups * string) : groups * string :=
  (lower_groups (fst gr), Str.lower (snd gr)).

(** *** Writing a date

    The shapes [parse_post_date] is meant for, written out: the year with
    four digits, month and day with or without a leading zero, the month name
    in full or abbreviated. *)

Definition digit_char (n : nat) : ascii := ascii_of_nat (48 + n).

Definition pad2 (n : nat) : string :=
  String (digit_char (n / 10)) (String (digit_char (n mod 10)) EmptyString).

Definition pad4 (n : nat) : string := (pad2 (n / 100) ++ pad2 (n mod 100))%string.

Definition number (padded : bool) (n : nat) : string :=
  if padded then pad2 n else Str.of_nat n.

Definition month_name : list string :=
  [""; "January"; "February"; "March"; "April"; "May"; "June"; "July";
   "August"; "September"; "October"; "November"; "December"].

Definition month_abbr : list string :=
  [""; "Jan"; "Feb"; "Mar"; "Apr"; "May"; "Jun"; "Jul";
   "Aug"; "Sep"; "Oct"; "Nov"; "Dec"].

Definition name_of_month (full : bool) (m : nat) : string :=
  nth m (if full then month_name else month_abbr) EmptyString.

Inductive shape :=
| Iso (pad_month pad_day : bool)        (* 2024-01-05, 2024-1-5 *)
| DayMonthYear (full padded : bool)     (* 05 January 2024, 5 Jan 2024 *)
| MonthDayYear (full padded : bool).    (* January 05, 2024, Jan 5, 2024 *)

Definition before_year (sh : shape) (m d : nat) : string :=
  match sh with
  | Iso _ _ => EmptyString
  | DayMonthYear full padded =>
      (number padded d ++ " " ++ name_of_month full m ++ " ")%string
  | MonthDayYear full padded =>
      (name_of_month full m ++ " " ++ number padded d ++ ", ")%string
  end.

Definition after_year (sh : shape) (m d : nat) : string :=
  match sh with
  | Iso pad_month pad_day =>
      ("-" ++ number pad_month m ++ "-" ++ number pad_day d)%string
  | _ => EmptyString
  end.

Definition render (sh : shape) (y m d : nat) : string :=
  (before_year sh m d ++ pad4 y ++ after_year sh m d)%string.

(** *** Matching a text that ends with the year *)

(** Four digits. *)
Definition year_text (t : string) : bool :=
  match t with
  | String a (String b (String c (String e EmptyString))) =>
      Str.isdigit a && Str.isdigit b && Str.isdigit c && Str.isdigit e
  | _ => false
  end.

(** The token of a directive. *)
Definition dir (c : ascii) : token :=
  match directive c with
  | Some t => t
  | None => TLit c
  end.

(** The tokens of the four formats with a month name, up to the blanks before
    the year. *)
Definition NAMED : list (string * list token) :=
  [("%d %B %Y", [dir "d"; TSpaces; dir "B"]);
   ("%B %d, %Y", [dir "B"; TSpaces; dir "d"; TLit ","]);
   ("%d %b %Y", [dir "d"; TSpaces; dir "b"]);
   ("%b %d, %Y", [dir "b"; TSpaces; dir "d"; TLit ","])].

(** The tokens of the first format after the year. *)
Definition ISO_REST : list token := [TLit "-"; dir "m"; TLit "-"; dir "d"].

(** A match result on a text, seen on the text followed by [t]. *)
Definition ext (t : string) (gr : groups * string) : groups * string :=
  (fst gr, (snd gr ++ t)%string).

(** How the results of a token on a text followed by digits [t] relate to
    its results on the text alone: the same results in the same order, and
    in between results that run into [t] and leave digits only. *)
Inductive Ext (t : string) : list (groups * string) -> list (groups * string) -> Prop :=
| Ext_nil : Ext t [] []
| Ext_keep g r l l' : Ext t l l' -> Ext t ((g, r) :: l) ((g, (r ++ t)%string) :: l')
| Ext_over g u l l' : Ext t l l' -> all_chars Str.isdigit u = true -> Ext t l ((g, u) :: l').

(** What the tokens before the year make of the text before the year. *)
Inductive prefix_status := PFail | POk (m d : nat) | POther.

Definition prefix_status_of (pts : list token) (p : string) : prefix_status :=
  match match_tokens (pts ++ [TSpaces]) p with
  | [] => PFail
  | (g, EmptyString) :: _ =>
      match fold_left convert_group g (Some (mk_fields None 1 1)) with
      | Some (mk_fields None m d) => POk m d
      | _ => POther
      end
  | _ => POther
  end.

(** The first format with a month name that does not fail on the text. *)
Fixpoint first_status (named : list (string * list token)) (p : string) : prefix_status :=
  match named with
  | [] => PFail
  | (_, pts) :: named' =>
      match prefix_status_of pts p with
      | PFail => first_status named' p
      | st => st
      end
  end.

Definition groups_eqb (g1 g2 : groups) : bool :=
  (List.length g1 =? List.length g2)
  && forallb (fun ab => Ascii.eqb (fst (fst ab)) (fst (snd ab))
                        && String.eqb (snd (fst ab)) (snd (snd ab)))
             (combine g1 g2).

(** The checks the proof of the round trip runs on every month and day. *)
Definition iso_rest_ok (pad_month pad_day : bool) (m d : nat) : bool :=
  match match_tokens ISO_REST (after_year (Iso pad_month pad_day) m d) with
  | (g, r) :: _ =>
      groups_eqb g [("m"%char, number pad_month m); ("d"%char, number pad_day d)]
      && String.eqb r ""
      && (int (number pad_month m) =? m) && (int (number pad_day d) =? d)
      && match Str.last_char (after_year (Iso pad_month pad_day) m d) with
         | Some c => negb (Str.isspace c)
         | None => false
         end
  | [] => false
  end.

Definition named_ok (sh : shape) (m d : nat) : bool :=
  let p := before_year sh m d in
  match first_status NAMED p with
  | POk m' d' => (m' =? m) && (d' =? d)
  | _ => false
  end
  && (4 <=? String.length p)
  && match match_classes [Str.isdigit; Str.isdigit; Str.isdigit; Str.isdigit] p with
     | None => true
     | Some _ => false
     end
  && negb (Str.is_space_opt (Str.first_char p)).

Definition SHAPES_NAMED : list shape :=
  [DayMonthYear true true; DayMonthYear true false;
   DayMonthYear false true; DayMonthYear false false;
   MonthDayYear true true; MonthDayYear true false;
   MonthDayYear false true; MonthDayYear false false].

Definition all_months_days (check : nat -> nat -> bool) : bool :=
  forallb (fun m => forallb (check m) (seq 1 31)) (seq 1 12).

(** *** Checks for dates the calendar lacks *)

Definition nospace : charclass := fun c => negb (Str.isspace c).

(** Every format with a month name fails on the text before the year or
    reads the month [m] and the day [d] off it. *)
Definition named_all_ok (sh : shape) (m d : nat) : bool :=
  forallb (fun fmt_pts =>
             match prefix_status_of (snd fmt_pts) (before_year sh m d) with
             | PFail => true
             | POk m' d' => (m' =? m) && (d' =? d)
             | POther => false
             end) NAMED.

Definition iso_nospace (pad_month pad_day : bool) (m d : nat) : bool :=
  all_chars nospace (after_year (Iso pad_month pad_day) m d).

End DateTexts.

(** * Properties *)

Import DateNormalizer Dom Extractor Selection Main.

(** ** Trimming *)

Section StripFacts.

Import Str.

Lemma lstrip_split (s : string) :
  exists l, s = (l ++ lstrip s)%string /\ all_space l = true.
Proof.
  induction s as [|c s IH]; simpl.
  - exists EmptyString. split; reflexivity.
  - destruct (isspace c) eqn:Hc.
    + destruct IH as [l [Hl Hsp]]. exists (String c l). simpl. rewrite Hc, Hsp.
      split; [f_equal; exact Hl | reflexivity].
    + exists EmptyString. split; reflexivity.
Qed.

Lemma rstrip_split (s : string) :
  exists r, s = (rstrip s ++ r)%string /\ all_space r = true.
Proof.
  induction s as [|c s IH]; simpl.
  - exists EmptyString. split; reflexivity.
  - destruct IH as [r [Hr Hsp]].
    destruct (isspace c) eqn:Hc; simpl.
    + destruct (String.eqb_spec (rstrip s) "") as [He|Hne].
      * exists (String c r). simpl. rewrite Hc, Hsp. rewrite He in Hr.
        simpl in Hr. rewrite <- Hr. split; reflexivity.
      * exists r. simpl. split; [f_equal; exact Hr | exact Hsp].
    + exists r. simpl. split; [f_equal; exact Hr | exact Hsp].
Qed.

Lemma lstrip_first (s : string) : is_space_opt (first_char (lstrip s)) = false.
Proof.
  induction s as [|c s IH]; simpl; [reflexivity|].
  destruct (isspace c) eqn:Hc; [exact IH | simpl; exact Hc].
Qed.

Lemma rstrip_first (s : string) :
  is_space_opt (first_char s) = false -> is_space_opt (first_char (rstrip s)) = false.
Proof.
  destruct s as [|c s]; simpl; [reflexivity|].
  intros Hc. rewrite Hc. simpl. exact Hc.
Qed.

Lemma rstrip_last (s : string) : is_space_opt (last_char (rstrip s)) = false.
Proof.
  induction s as [|c s IH]; simpl; [reflexivity|].
  destruct (rstrip s) as [|c' r] eqn:Hr.
  - destruct (isspace c) eqn:Hc; simpl; [reflexivity | exact Hc].
  - rewrite andb_false_r. exact IH.
Qed.

Lemma lstrip_fixed (s : string) :
  is_space_opt (first_char s) = false -> lstrip s = s.
Proof.
  destruct s as [|c s]; simpl; [reflexivity|]. intros Hc. rewrite Hc. reflexivity.
Qed.

Lemma rstrip_fixed (s : string) :
  is_space_opt (last_char s) = false -> rstrip s = s.
Proof.
  induction s as [|c s IH]; [reflexivity|].
  intros H. cbn [rstrip]. destruct s as [|c' s'].
  - simpl in *. rewrite H. reflexivity.
  - rewrite IH by exact H. rewrite andb_false_r. reflexivity.
Qed.

Lemma strip_first (s : string) : is_space_opt (first_char (strip s)) = false.
Proof. unfold strip. apply rstrip_first, lstrip_first. Qed.

Lemma strip_last (s : string) : is_space_opt (last_char (strip s)) = false.
Proof. unfold strip. apply rstrip_last. Qed.

Lemma strip_idempotent (s : string) : strip (strip s) = strip s.
Proof.
  unfold strip at 1. rewrite lstrip_fixed by apply strip_first.
  apply rstrip_fixed, strip_last.
Qed.

Lemma strip_split (s : string) :
  exists l r, s = (l ++ strip s ++ r)%string /\ all_space l = true /\ all_space r = true.
Proof.
  destruct (lstrip_split s) as [l [Hl Hsl]].
  destruct (rstrip_split (lstrip s)) as [r [Hr Hsr]].
  exists l, r. unfold strip. rewrite <- Hr. auto.
Qed.

Lemma lstrip_all_space (l : string) : all_space l = true -> lstrip l = EmptyString.
Proof.
  induction l as [|c l IH]; simpl; [reflexivity|].
  intros H. apply andb_true_iff in H as [Hc Hl]. rewrite Hc. auto.
Qed.

Lemma lstrip_app_space (l s : string) :
  all_space l = true -> lstrip (l ++ s) = lstrip s.
Proof.
  induction l as [|c l IH]; simpl; [reflexivity|].
  intros H. apply andb_true_iff in H as [Hc Hl]. rewrite Hc. auto.
Qed.

Lemma rstrip_all_space (r : string) : all_space r = true -> rstrip r = EmptyString.
Proof.
  induction r as [|c r IH]; simpl; [reflexivity|].
  intros H. apply andb_true_iff in H as [Hc Hr]. rewrite Hc, IH by exact Hr. reflexivity.
Qed.

Lemma rstrip_app_space (s r : string) :
  all_space r = true -> rstrip (s ++ r) = rstrip s.
Proof.
  intros Hr. induction s as [|c s IH]; simpl.
  - apply rstrip_all_space, Hr.
  - rewrite IH. reflexivity.
Qed.

(** Blanks around a text do not change what [strip] returns. *)
Lemma strip_padding (l s r : string) :
  all_space l = true -> all_space r = true -> strip (l ++ s ++ r) = strip s.
Proof.
  intros Hl Hr. unfold strip. rewrite lstrip_app_space by exact Hl.
  induction s as [|c s IH]; simpl.
  - rewrite lstrip_all_space by exact Hr. reflexivity.
  - destruct (isspace c) eqn:Hc; [exact IH|].
    change (String c (s ++ r))%string with (String c s ++ r)%string.
    apply rstrip_app_space, Hr.
Qed.

End StripFacts.

(** ** The format loop *)

Section FormatLoop.

Lemma try_formats_some (fmts : list string) (text : string) (dt : datetime) :
  try_formats fmts text = Some dt <->
  exists i fmt,
    nth_error fmts i = Some fmt
    /\ strptime (Str.strip text) fmt = inr dt
    /\ forall j fmt', j < i -> nth_error fmts j = Some fmt' ->
         exists e, strptime (Str.strip text) fmt' = inl e.
Proof.
  induction fmts as [|f fmts IH]; simpl.
  - split; [discriminate|]. intros [i [fmt [H _]]]. destruct i; discriminate.
  - destruct (strptime (Str.strip text) f) as [e|d] eqn:Hf.
    + rewrite IH. split.
      * intros [i [fmt [Hi [Hp Hj]]]]. exists (S i), fmt. repeat split; auto.
        intros j fmt' Hlt Hn. destruct j as [|j]; simpl in Hn.
        -- injection Hn as <-. eauto.
        -- apply (Hj j); [lia | exact Hn].
      * intros [i [fmt [Hi [Hp Hj]]]]. destruct i as [|i]; simpl in Hi.
        -- injection Hi as <-. congruence.
        -- exists i, fmt. repeat split; auto.
           intros j fmt' Hlt Hn. apply (Hj (S j)); [lia | exact Hn].
    + split.
      * intros H. injection H as <-. exists 0, f. repeat split; auto.
        intros j fmt' Hlt. lia.
      * intros [i [fmt [Hi [Hp Hj]]]]. destruct i as [|i]; simpl in Hi.
        -- injection Hi as <-. congruence.
        -- destruct (Hj 0 f) as [e He]; [lia | reflexivity | congruence].
Qed.

Lemma try_formats_none (fmts : list string) (text : string) :
  try_formats fmts text = None <->
  forall fmt, In fmt fmts -> exists e, strptime (Str.strip text) fmt = inl e.
Proof.
  induction fmts as [|f fmts IH]; simpl.
  - split; [intros _ fmt [] | reflexivity].
  - destruct (strptime (Str.strip text) f) as [e|d] eqn:Hf.
    + rewrite IH. split.
      * intros H fmt [<-|Hin]; eauto.
      * intros H fmt Hin. apply H. right. exact Hin.
    + split; [discriminate|]. intros H.
      destruct (H f) as [e He]; [left; reflexivity | congruence].
Qed.

Lemma try_formats_strip (fmts : list string) (text : string) :
  try_formats fmts (Str.strip text) = try_formats fmts text.
Proof.
  induction fmts as [|f fmts IH]; simpl; [reflexivity|].
  rewrite strip_idempotent, IH. reflexivity.
Qed.

End FormatLoop.

(** ** The date normaliser *)

(** One text for each of the five shapes, in the order they are tried, and
    texts none of them accepts (a day or year the calendar lacks, a relative
    date, trailing data). *)
Example parse_post_date_shapes :
  parse_post_date " 2024-01-05 " = Some (mk_datetime 2024 1 5)
  /\ parse_post_date "05 January 2024" = Some (mk_datetime 2024 1 5)
  /\ parse_post_date "January 5, 2024" = Some (mk_datetime 2024 1 5)
  /\ parse_post_date "5 jan 2024" = Some (mk_datetime 2024 1 5)
  /\ parse_post_date "Jan 5, 2024" = Some (mk_datetime 2024 1 5)
  /\ parse_post_date "2024-02-29" = Some (mk_datetime 2024 2 29)
  /\ parse_post_date "2023-02-29" = None
  /\ parse_post_date "0000-01-01" = None
  /\ parse_post_date "2 days ago" = None
  /\ parse_post_date "2024-01-05T10:00" = None
  /\ parse_post_date "" = None.
Proof. repeat split; vm_compute; reflexivity. Qed.

(** A text two shapes accept: the full and the abbreviated name of May are
    the same word, so both "DD Month YYYY" and "DD Mon YYYY" parse it; the
    loop returns what the earlier one gives. *)
Example parse_post_date_may :
  strptime "5 May 2024" "%d %B %Y" = inr (mk_datetime 2024 5 5)
  /\ strptime "5 May 2024" "%d %b %Y" = inr (mk_datetime 2024 5 5)
  /\ strptime "5 May 2024" "%Y-%m-%d" = inl NoMatch
  /\ parse_post_date "5 May 2024" = Some (mk_datetime 2024 5 5).
Proof. repeat split; vm_compute; reflexivity. Qed.

(** C3. [parse_post_date] trims the text (the text is blanks, the trimmed
    text, blanks, and the trimmed text neither starts nor ends with a blank;
    blanks added around a text change nothing), then tries the five formats
    YYYY-MM-DD, DD Month YYYY, Month DD, YYYY, DD Mon YYYY, Mon DD, YYYY in
    this order on the trimmed text: it returns a date exactly when some format
    parses the trimmed text to it and every earlier format fails, and [None]
    exactly when all five fail.  Being a function, it is deterministic and
    has no effect. *)
Theorem parse_post_date_first_match (text : string) :
  (exists l r,
      text = (l ++ Str.strip text ++ r)%string
      /\ Str.all_space l = true /\ Str.all_space r = true
      /\ Str.is_space_opt (Str.first_char (Str.strip text)) = false
      /\ Str.is_space_opt (Str.last_char (Str.strip text)) = false)
  /\ (forall l r, Str.all_space l = true -> Str.all_space r = true ->
        parse_post_date (l ++ text ++ r) = parse_post_date text)
  /\ FORMATS = ["%Y-%m-%d"; "%d %B %Y"; "%B %d, %Y"; "%d %b %Y"; "%b %d, %Y"]
  /\ (forall dt,
        parse_post_date text = Some dt <->
        exists i fmt,
          nth_error FORMATS i = Some fmt
          /\ strptime (Str.strip text) fmt = inr dt
          /\ forall j fmt', j < i -> nth_error FORMATS j = Some fmt' ->
               exists e, strptime (Str.strip text) fmt' = inl e)
  /\ (parse_post_date text = None <->
      forall fmt, In fmt FORMATS -> exists e, strptime (Str.strip text) fmt = inl e).
Proof.
  split; [|split; [|split; [|split]]].
  - destruct (strip_split text) as [l [r [H [Hl Hr]]]].
    exists l, r. repeat split; auto using strip_first, strip_last.
  - intros l r Hl Hr. unfold parse_post_date.
    rewrite <- (try_formats_strip FORMATS (l ++ text ++ r)).
    rewrite strip_padding by assumption. apply try_formats_strip.
  - reflexivity.
  - intros dt. apply try_formats_some.
  - apply try_formats_none.
Qed.

(** The witness of C3 at a padded text of the third shape. *)
Lemma parse_post_date_first_match_witness :
  parse_post_date ("  " ++ "January 5, 2024" ++ " ") = Some (mk_datetime 2024 1 5).
Proof.
  destruct (parse_post_date_first_match "January 5, 2024") as [_ [Hpad _]].
  rewrite Hpad by reflexivity. vm_compute. reflexivity.
Defined.

(** ** The post extractor *)

Section ExtractorFacts.

Lemma scan_articles_app (articles : list Tag) (posts : list post) :
  scan_articles articles posts = posts ++ flat_map article_record articles.
Proof.
  revert posts. induction articles as [|a articles IH]; intros posts; simpl.
  - rewrite app_nil_r. reflexivity.
  - unfold scan_articles in *. simpl. rewrite IH. unfold article_record at 2.
    destruct (find HEADINGS (elem a)); simpl.
    + rewrite <- app_assoc. reflexivity.
    + reflexivity.
Qed.

Lemma scan_h2_app (h2s : list Tag) (posts : list post) :
  scan_h2 h2s posts = posts ++ map make_post h2s.
Proof.
  revert posts. induction h2s as [|h h2s IH]; intros posts; simpl.
  - rewrite app_nil_r. reflexivity.
  - unfold scan_h2 in *. simpl. rewrite IH, <- app_assoc. reflexivity.
Qed.

Lemma is_nil_true {A} (l : list A) : is_nil l = true <-> l = [].
Proof. destruct l; simpl; split; intros H; congruence. Qed.

Lemma posts_after_tier1 (doc : node) :
  scan_articles (find_all ["article"] doc) [] = tier1 doc.
Proof. apply scan_articles_app. Qed.

Lemma extract_tiers (doc : node) :
  extract doc = if tier2_runs doc then tier2 doc else tier1 doc.
Proof.
  unfold extract, tier2_runs. rewrite posts_after_tier1.
  destruct (tier1 doc) eqn:H1; simpl; [|reflexivity].
  apply scan_h2_app.
Qed.

Lemma flat_map_nil_iff {A B} (f : A -> list B) (l : list A) :
  flat_map f l = [] <-> forall x, In x l -> f x = [].
Proof.
  induction l as [|a l IH]; simpl.
  - split; [intros _ x [] | reflexivity].
  - split.
    + intros H. apply app_eq_nil in H as [Ha Hl]. intros x [<-|Hin]; [exact Ha|].
      apply IH; assumption.
    + intros H. rewrite (H a) by (left; reflexivity). simpl. apply IH.
      intros x Hin. apply H. right. exact Hin.
Qed.

Lemma make_post_title (t : Tag) : exists s, title (make_post t) = Some s.
Proof. unfold make_post. simpl. eauto. Qed.

Lemma in_tier1 (doc : node) (p : post) :
  In p (tier1 doc) -> exists heading, p = make_post heading.
Proof.
  unfold tier1. rewrite in_flat_map. intros [a [_ Hp]].
  unfold article_record in Hp. destruct (find HEADINGS (elem a)) as [h|]; simpl in Hp.
  - destruct Hp as [<-|[]]. eauto.
  - destruct Hp.
Qed.

Lemma in_tier2 (doc : node) (p : post) :
  In p (tier2 doc) -> exists heading, p = make_post heading.
Proof.
  unfold tier2. rewrite in_map_iff. intros [h [<- _]]. eauto.
Qed.

Lemma heading_not_article (t : Tag) :
  named HEADINGS t = true -> named ["article"] t = false.
Proof.
  unfold named. destruct (name_of (elem t)) as [nm|]; [|reflexivity].
  unfold HEADINGS. simpl.
  repeat match goal with
         | |- context [String.eqb nm ?x] => destruct (String.eqb_spec nm x); [subst nm; simpl|]
         end; simpl; auto; discriminate.
Qed.

Lemma find_named (names : list string) (n : node) (t : Tag) :
  find names n = Some t -> named names t = true /\ In t (descendants n).
Proof.
  unfold find, find_all. intros H.
  assert (Hin : In t (filter (named names) (descendants n))).
  { destruct (filter (named names) (descendants n)); simpl in H; [discriminate|].
    injection H as <-. left. reflexivity. }
  apply filter_In in Hin. tauto.
Qed.

(** What the code does for every heading: the time element is looked for in
    the heading's parent. *)
Lemma heading_date_scope (heading : Tag) :
  named HEADINGS heading = true ->
  date (make_post heading) = date_text_in (parent heading).
Proof.
  intros H. unfold make_post, scope_of. simpl.
  rewrite (heading_not_article _ H). reflexivity.
Qed.

(** For a heading that is a child of the article, that parent is the article. *)
Lemma child_heading_date (article heading : Tag) :
  find HEADINGS (elem article) = Some heading ->
  parent heading = Some (elem article) ->
  article_record article = [make_post heading]
  /\ date (make_post heading) = date_text_in (Some (elem article)).
Proof.
  intros Hf Hp. unfold article_record. rewrite Hf. split; [reflexivity|].
  rewrite heading_date_scope, Hp; [reflexivity|].
  apply (find_named _ _ _ Hf).
Qed.

End ExtractorFacts.

(** [descendants] lists a tree in document order. *)
Example descendants_document_order :
  map (fun t => name_of (elem t))
      (descendants
         (soup [Elem "div" [] [Elem "h2" [] [Text "a"]; Elem "p" [] []];
                Elem "article" [] [Elem "h3" [] []]]))
  = [Some "div"; Some "h2"; None; Some "p"; Some "article"; Some "h3"].
Proof. reflexivity. Qed.

(** The two examples of the specification. *)
Example extract_article_example :
  extract (soup [Elem "article" []
                   [Elem "h2" [] [Elem "a" [("href", "/p1")] [Text "Hello"]];
                    Elem "time" [("datetime", "2024-01-05")] []]])
  = [mk_post (Some "Hello") (Some "2024-01-05") (Some "/p1")].
Proof. reflexivity. Qed.

Example extract_orphan_example :
  extract (soup [Elem "h2" [] [Text "Orphan Heading"]])
  = [mk_post (Some "Orphan Heading") None None].
Proof. reflexivity. Qed.

(** C1, as stated, fails: the article below holds its heading inside a header
    element and a time element beside that header.  A search of the article
    for a time element gives the date 2024-01-05, yet the record extracted
    has no date: the time element is looked for in the parent of the heading,
    the header. *)
Lemma nested_heading_misses_article_time :
  let time := Elem "time" [("datetime", "2024-01-05")] [] in
  let heading := Elem "h2" [] [Text "T"] in
  let header := Elem "header" [] [heading] in
  let article := Elem "article" [] [header; time] in
  let doc := soup [article] in
  find_all ["article"] doc = [mk_tag article (Some doc)]
  /\ find HEADINGS article = Some (mk_tag heading (Some header))
  /\ date_text_in (Some article) = Some "2024-01-05"
  /\ extract doc = [mk_post (Some "T") None None].
Proof. vm_compute. repeat split. Qed.

(** C1, amended. For every article container of the page with a heading, the
    record of its first heading is among the records extracted, and its date
    is read off the parent element of that heading: the datetime attribute of
    the first time element in the parent if it has that attribute, else the
    trimmed text of that element, nothing without a time element.  When the
    heading is a child of the article, that parent is the article itself. *)
Theorem tier1_date_scope (doc : node) (article heading : Tag) :
  In article (find_all ["article"] doc) ->
  find HEADINGS (elem article) = Some heading ->
  In (make_post heading) (extract doc)
  /\ date (make_post heading) = date_text_in (parent heading)
  /\ (parent heading = Some (elem article) ->
      date (make_post heading) = date_text_in (Some (elem article)))
  /\ (forall scope,
        date_text_in (Some scope) =
        match find ["time"] scope with
        | None => None
        | Some time_tag =>
            Some match get_attr "datetime" (attrs_of (elem time_tag)) with
                 | Some v => v
                 | None => get_text (elem time_tag)
                 end
        end).
Proof.
  intros Hin Hf.
  assert (Hrec : In (make_post heading) (tier1 doc)).
  { unfold tier1. apply in_flat_map. exists article. split; [exact Hin|].
    unfold article_record. rewrite Hf. left. reflexivity. }
  assert (Hd : date (make_post heading) = date_text_in (parent heading)).
  { apply heading_date_scope, (find_named _ _ _ Hf). }
  split; [|split; [exact Hd|split]].
  - rewrite extract_tiers. destruct (tier2_runs doc) eqn:Hr; [|exact Hrec].
    unfold tier2_runs in Hr. rewrite posts_after_tier1 in Hr.
    apply is_nil_true in Hr. rewrite Hr in Hrec. destruct Hrec.
  - intros Hp. rewrite Hd, Hp. reflexivity.
  - intros scope. unfold date_text_in.
    destruct (find ["time"] scope) as [t|]; [|reflexivity].
    destruct (get_attr "datetime" (attrs_of (elem t))); reflexivity.
Qed.

(** The witness of C1 amended: the article example of the specification,
    whose heading is a child of the article. *)
Lemma tier1_date_scope_witness :
  let heading := Elem "h2" [] [Elem "a" [("href", "/p1")] [Text "Hello"]] in
  let article :=
    Elem "article" [] [heading; Elem "time" [("datetime", "2024-01-05")] []] in
  date (make_post (mk_tag heading (Some article))) = date_text_in (Some article).
Proof.
  intros heading article.
  apply (tier1_date_scope (soup [article])
           (mk_tag article (Some (soup [article])))
           (mk_tag heading (Some article))).
  - left. reflexivity.
  - reflexivity.
Defined.

(** C4. The second scan runs exactly when the article scan left no record.
    The result is the Tier-1 records when there is one, else the Tier-2
    records, never records of both; each tier lists its records in the order
    of the document; and an article without a heading adds nothing, wherever
    it stands among the articles. *)
Theorem tier2_iff_tier1_empty (doc : node) :
  (tier2_runs doc = true <-> tier1 doc = [])
  /\ extract doc = (if tier2_runs doc then tier2 doc else tier1 doc)
  /\ (tier1 doc <> [] -> extract doc = tier1 doc)
  /\ (tier1 doc = [] -> extract doc = tier2 doc)
  /\ tier1 doc = flat_map article_record (filter (named ["article"]) (descendants doc))
  /\ tier2 doc = map make_post (filter (named ["h2"]) (descendants doc))
  /\ (forall article before after posts,
        find HEADINGS (elem article) = None ->
        scan_articles (before ++ article :: after) posts
        = scan_articles (before ++ after) posts).
Proof.
  assert (Hruns : tier2_runs doc = true <-> tier1 doc = []).
  { unfold tier2_runs. rewrite posts_after_tier1. apply is_nil_true. }
  split; [exact Hruns|].
  split; [apply extract_tiers|].
  split; [|split; [|split; [|split]]].
  - intros Hne. rewrite extract_tiers.
    destruct (tier2_runs doc); [|reflexivity].
    exfalso. apply Hne, Hruns. reflexivity.
  - intros He. rewrite extract_tiers.
    rewrite (proj2 Hruns He). reflexivity.
  - reflexivity.
  - reflexivity.
  - intros article before after posts Hnone.
    rewrite !scan_articles_app, !flat_map_app. simpl.
    unfold article_record at 2. rewrite Hnone. reflexivity.
Qed.

(** The witness of C4: a page whose first article has no heading and whose
    second has one; the lone h2 outside the articles is not scanned. *)
Lemma tier2_iff_tier1_empty_witness :
  let doc := soup [Elem "article" [] [Elem "p" [] [Text "x"]];
                   Elem "article" [] [Elem "h3" [] [Text "A"]];
                   Elem "h2" [] [Text "B"]] in
  tier1 doc <> [] /\ extract doc = tier1 doc
  /\ extract doc = [mk_post (Some "A") None None].
Proof.
  intros doc.
  assert (Hne : tier1 doc <> []) by (vm_compute; discriminate).
  split; [exact Hne|].
  destruct (tier2_iff_tier1_empty doc) as [_ [_ [H1 _]]].
  split; [exact (H1 Hne)|].
  rewrite (H1 Hne). reflexivity.
Defined.

(** C5, as stated, fails: the page below has an article container, the
    container has no heading, and the second scan runs and gives the record
    of the h2. *)
Lemma headingless_article_triggers_tier2 :
  let doc := soup [Elem "article" [] [Elem "p" [] [Text "x"]];
                   Elem "h2" [] [Text "T"]] in
  find_all ["article"] doc <> []
  /\ tier2_runs doc = true
  /\ extract doc = [mk_post (Some "T") None None].
Proof. repeat split. vm_compute. discriminate. Qed.

(** C5, amended. When some article container has a heading, the second scan
    does not run and the result is the Tier-1 records, whatever articles lack
    a heading; when the page has no article container and at least one h2,
    the result is the Tier-2 records. *)
Theorem tier2_never_after_valid_article (doc : node) :
  ((exists article,
       In article (find_all ["article"] doc) /\ has_heading article = true) ->
   tier2_runs doc = false /\ extract doc = tier1 doc)
  /\ (find_all ["article"] doc = [] -> find_all ["h2"] doc <> [] ->
      extract doc = tier2 doc /\ extract doc <> []).
Proof.
  split.
  - intros [article [Hin Hh]].
    assert (Hne : tier1 doc <> []).
    { intros He. unfold tier1 in He.
      rewrite flat_map_nil_iff in He. specialize (He article Hin).
      unfold has_heading in Hh. unfold article_record, find in He.
      destruct (find_all HEADINGS (elem article)); simpl in *; discriminate. }
    assert (Hr : tier2_runs doc = false).
    { destruct (tier2_runs doc) eqn:Hr; [|reflexivity].
      exfalso. apply Hne. unfold tier2_runs in Hr.
      rewrite posts_after_tier1 in Hr. apply is_nil_true, Hr. }
    split; [exact Hr|]. rewrite extract_tiers, Hr. reflexivity.
  - intros Hna Hh2.
    assert (He : extract doc = tier2 doc).
    { rewrite extract_tiers. unfold tier2_runs. rewrite Hna. reflexivity. }
    split; [exact He|]. rewrite He. unfold tier2.
    fold (find_all ["h2"] doc). destruct (find_all ["h2"] doc); [congruence|].
    simpl. discriminate.
Qed.

(** The witness of C5 amended: a page with a heading in its second article
    only, and a page with two h2 and no article. *)
Lemma tier2_never_after_valid_article_witness :
  let doc1 := soup [Elem "article" [] [Elem "p" [] [Text "x"]];
                    Elem "article" [] [Elem "h3" [] [Text "A"]];
                    Elem "h2" [] [Text "B"]] in
  let doc2 := soup [Elem "h2" [] [Text "B"]; Elem "div" [] [Elem "h2" [] [Text "C"]]] in
  (tier2_runs doc1 = false /\ extract doc1 = tier1 doc1)
  /\ (extract doc2 = tier2 doc2 /\ extract doc2 <> []).
Proof.
  intros doc1 doc2. split.
  - apply (proj1 (tier2_never_after_valid_article doc1)).
    exists (mk_tag (Elem "article" [] [Elem "h3" [] [Text "A"]]) (Some doc1)).
    split; [vm_compute; right; left; reflexivity | reflexivity].
  - apply (proj2 (tier2_never_after_valid_article doc2)).
    + reflexivity.
    + vm_compute. discriminate.
Defined.

(** C8. Every record of [extract] has a title that is a string; that string
    can be empty, and the date and the url can be absent. *)
Theorem extract_title_present :
  (forall doc p, In p (extract doc) -> exists s, title p = Some s)
  /\ (exists doc p, In p (extract doc) /\ title p = Some EmptyString)
  /\ (exists doc p, In p (extract doc) /\ date p = None /\ url p = None).
Proof.
  split; [|split].
  - intros doc p Hin. rewrite extract_tiers in Hin.
    destruct (tier2_runs doc);
      [apply in_tier2 in Hin | apply in_tier1 in Hin];
      destruct Hin as [h ->]; apply make_post_title.
  - exists (soup [Elem "h2" [] []]), (mk_post (Some EmptyString) None None).
    split; [left; reflexivity | reflexivity].
  - exists (soup [Elem "h2" [] [Text "T"]]), (mk_post (Some "T") None None).
    split; [left; reflexivity | split; reflexivity].
Qed.

(** The witness of C8 at the article example of the specification. *)
Lemma extract_title_present_witness :
  exists s, title (mk_post (Some "Hello") (Some "2024-01-05") (Some "/p1")) = Some s.
Proof.
  apply (proj1 extract_title_present
           (soup [Elem "article" []
                    [Elem "h2" [] [Elem "a" [("href", "/p1")] [Text "Hello"]];
                     Elem "time" [("datetime", "2024-01-05")] []]])).
  left. reflexivity.
Defined.

(** ** Latest-post selection *)

Section SelectionFacts.

Lemma dt_ltb_spec (a b : datetime) : reflect (dt_lt a b) (dt_ltb a b).
Proof.
  apply iff_reflect. unfold dt_lt, dt_ltb.
  rewrite !orb_true_iff, !andb_true_iff, orb_true_iff, andb_true_iff.
  rewrite !Nat.ltb_lt, !Nat.eqb_eq. reflexivity.
Qed.

Lemma dt_ltb_true (a b : datetime) : dt_ltb a b = true <-> dt_lt a b.
Proof. destruct (dt_ltb_spec a b); split; intros; congruence || assumption || contradiction. Qed.

Lemma dt_ltb_false (a b : datetime) : dt_ltb a b = false <-> ~ dt_lt a b.
Proof. destruct (dt_ltb_spec a b); split; intros; congruence || assumption || contradiction. Qed.

Ltac dt_order :=
  unfold dt_gtb in *;
  repeat match goal with
         | H : dt_ltb _ _ = true |- _ => apply dt_ltb_true in H
         | H : dt_ltb _ _ = false |- _ => apply dt_ltb_false in H
         | |- dt_ltb _ _ = true => apply dt_ltb_true
         | |- dt_ltb _ _ = false => apply dt_ltb_false
         end;
  unfold dt_lt in *; lia.

Lemma dt_gtb_irrefl (a : datetime) : dt_gtb a a = false.
Proof. dt_order. Qed.

Lemma dt_gtb_raise (q d r : datetime) :
  dt_gtb q d = false -> dt_gtb r d = true ->
  dt_gtb q r = false /\ dt_ltb q r = true.
Proof. intros H1 H2. split; dt_order. Qed.

Lemma select_from_app (st : sel) (l : list post) (p : post) :
  select_from st (l ++ [p]) = step (select_from st l) p.
Proof. unfold select_from. rewrite fold_left_app. reflexivity. Qed.

Lemma step_untitled (st : sel) (p : post) :
  truthy (title p) = false -> step st p = st.
Proof.
  unfold step, truthy. destruct (title p) as [t|]; [|reflexivity].
  intros ->. reflexivity.
Qed.

Lemma step_titled (st : sel) (p : post) :
  truthy (title p) = true ->
  step st p =
  if later (parsed_date p) (latest_date st)
  then mk_sel (title_str p) (parsed_date p) (parse_calls st ++ parse_args p)
  else if is_none (latest_date st) && String.eqb (latest_title st) "None"
       then mk_sel (title_str p) (latest_date st) (parse_calls st ++ parse_args p)
       else mk_sel (latest_title st) (latest_date st) (parse_calls st ++ parse_args p).
Proof.
  unfold step, truthy, title_str. destruct (title p) as [t|]; [|discriminate].
  intros ->. reflexivity.
Qed.

Lemma select_from_untitled (posts : list post) (st : sel) :
  (forall p, In p posts -> truthy (title p) = false) ->
  select_from st posts = st.
Proof.
  revert st. induction posts as [|a posts IH]; intros st Hall; [reflexivity|].
  change (select_from st (a :: posts)) with (select_from (step st a) posts).
  rewrite step_untitled by (apply Hall; left; reflexivity).
  apply IH. intros p Hin. apply Hall. right. exact Hin.
Qed.

Lemma select_from_skip (st : sel) (before after : list post) (p : post) :
  truthy (title p) = false ->
  select_from st (before ++ p :: after) = select_from st (before ++ after).
Proof.
  intros H. unfold select_from. rewrite !fold_left_app. simpl.
  rewrite step_untitled by exact H. reflexivity.
Qed.

Lemma step_title_nonempty (st : sel) (p : post) :
  latest_title st <> EmptyString -> latest_title (step st p) <> EmptyString.
Proof.
  intros Hst. destruct (truthy (title p)) eqn:Ht.
  - rewrite step_titled by exact Ht.
    assert (Hp : title_str p <> EmptyString).
    { unfold truthy, title_str, Str.nonempty in *.
      destruct (title p) as [t|]; [|discriminate].
      destruct (String.eqb_spec t ""); [discriminate | assumption]. }
    destruct (later _ _); [exact Hp|].
    destruct (_ && _); [exact Hp | exact Hst].
  - rewrite step_untitled by exact Ht. exact Hst.
Qed.

Lemma select_from_title_nonempty (posts : list post) (st : sel) :
  latest_title st <> EmptyString ->
  latest_title (select_from st posts) <> EmptyString.
Proof.
  revert st. induction posts as [|p posts IH]; intros st Hst; simpl; [exact Hst|].
  apply IH, step_title_nonempty, Hst.
Qed.

(** While no date has parsed, the tracked title moves only off the word
    None, and then to the first title that is not that word. *)
Lemma fallback_from (posts : list post) (st : sel) :
  (forall p, In p posts -> truthy (title p) = true -> parsed_date p = None) ->
  latest_date st = None ->
  latest_date (select_from st posts) = None
  /\ latest_title (select_from st posts) =
     if String.eqb (latest_title st) "None"
     then match first_named posts with
          | Some p => title_str p
          | None => "None"
          end
     else latest_title st.
Proof.
  revert st. induction posts as [|a posts IH]; intros st Hno Hd.
  - simpl. split; [exact Hd|].
    destruct (String.eqb_spec (latest_title st) "None"); auto.
  - assert (Hno' : forall p, In p posts -> truthy (title p) = true -> parsed_date p = None).
    { intros p Hin. apply Hno. right. exact Hin. }
    change (select_from st (a :: posts)) with (select_from (step st a) posts).
    unfold first_named. simpl. fold (first_named posts).
    destruct (truthy (title a)) eqn:Ht.
    + rewrite step_titled by exact Ht.
      rewrite (Hno a (or_introl eq_refl) Ht), Hd. simpl.
      destruct (String.eqb (latest_title st) "None") eqn:Hs.
      * match goal with |- context [select_from ?s posts] =>
          destruct (IH s Hno' eq_refl) as [H1 H2] end.
        simpl in H2. split; [exact H1|]. rewrite H2.
        destruct (String.eqb (title_str a) "None"); reflexivity.
      * match goal with |- context [select_from ?s posts] =>
          destruct (IH s Hno' eq_refl) as [H1 H2] end.
        simpl in H2. rewrite Hs in H2. split; assumption.
    + rewrite step_untitled by exact Ht. simpl. apply IH; assumption.
Qed.

Lemma nth_error_snoc {A} (l : list A) (x y : A) (j : nat) :
  nth_error (l ++ [x]) j = Some y ->
  (j < List.length l /\ nth_error l j = Some y) \/ (j = List.length l /\ y = x).
Proof.
  intros H. destruct (Nat.lt_ge_cases j (List.length l)) as [Hlt|Hge].
  - left. rewrite nth_error_app1 in H by exact Hlt. auto.
  - right. rewrite nth_error_app2 in H by exact Hge.
    destruct (j - List.length l) as [|k] eqn:Hk; simpl in H.
    + injection H as <-. split; [lia | reflexivity].
    + destruct k; discriminate.
Qed.

Lemma select_invariant (posts : list post) :
  (latest_date (select posts) = None /\ none_parsed posts)
  \/ first_latest posts (select posts).
Proof.
  induction posts as [|r posts IH] using rev_ind.
  - left. split; [reflexivity | intros q []].
  - unfold select in *. rewrite select_from_app.
    set (st := select_from init posts) in *.
    destruct (truthy (title r)) eqn:Ht.
    2:{ rewrite step_untitled by exact Ht.
        destruct IH as [[Hd Hn]|[i [p [d [Hi [Hp [Hpd [Hlt [Hld Hmax]]]]]]]]].
        - left. split; [exact Hd|]. intros q Hin Hq.
          apply in_app_or in Hin as [Hin|[<-|[]]]; [auto | congruence].
        - right. exists i, p, d.
          assert (Hil : i < List.length posts) by (apply nth_error_Some; congruence).
          repeat split; auto.
          + rewrite nth_error_app1 by exact Hil. exact Hi.
          + apply nth_error_snoc in H as [[_ Hj]|[_ ->]]; [|congruence].
            apply (Hmax j q dq Hj H0 H1).
          + apply nth_error_snoc in H as [[_ Hj]|[_ ->]]; [|congruence].
            apply (Hmax j q dq Hj H0 H1). }
    rewrite step_titled by exact Ht.
    destruct (parsed_date r) as [dr|] eqn:Hr.
    + right. destruct IH as [[Hd Hn]|[i [p [d [Hi [Hp [Hpd [Hlt [Hld Hmax]]]]]]]]].
      * rewrite Hd. simpl.
        exists (List.length posts), r, dr.
        rewrite nth_error_app2, Nat.sub_diag by lia.
        repeat split; auto.
        -- apply nth_error_snoc in H as [[_ Hj]|[_ ->]].
           ++ apply nth_error_In in Hj. rewrite (Hn q Hj H0) in H1. discriminate.
           ++ assert (dq = dr) by congruence. subst dq. apply dt_gtb_irrefl.
        -- intros Hlt. apply nth_error_snoc in H as [[_ Hj]|[Hj _]]; [|lia].
           apply nth_error_In in Hj. rewrite (Hn q Hj H0) in H1. discriminate.
      * assert (Hil : i < List.length posts) by (apply nth_error_Some; congruence).
        rewrite Hld. simpl. destruct (dt_gtb dr d) eqn:Hgt.
        -- exists (List.length posts), r, dr.
           rewrite nth_error_app2, Nat.sub_diag by lia.
           repeat split; auto.
           ++ apply nth_error_snoc in H as [[_ Hj]|[_ ->]].
              ** destruct (Hmax j q dq Hj H0 H1) as [Hle _].
                 apply (dt_gtb_raise dq d dr Hle Hgt).
              ** assert (dq = dr) by congruence. subst dq. apply dt_gtb_irrefl.
           ++ intros Hlt'. apply nth_error_snoc in H as [[_ Hj]|[Hj _]]; [|lia].
              destruct (Hmax j q dq Hj H0 H1) as [Hle _].
              apply (dt_gtb_raise dq d dr Hle Hgt).
        -- exists i, p, d. simpl.
           repeat split; auto.
           ++ rewrite nth_error_app1 by exact Hil. exact Hi.
           ++ apply nth_error_snoc in H as [[_ Hj]|[_ ->]].
              ** apply (Hmax j q dq Hj H0 H1).
              ** assert (dq = dr) by congruence. subst dq. exact Hgt.
           ++ intros Hlt'. apply nth_error_snoc in H as [[_ Hj]|[Hj _]]; [|lia].
              apply (Hmax j q dq Hj H0 H1). exact Hlt'.
    + simpl. destruct IH as [[Hd Hn]|[i [p [d [Hi [Hp [Hpd [Hlt [Hld Hmax]]]]]]]]].
      * left. rewrite Hd. simpl.
        split.
        -- destruct (String.eqb (latest_title st) "None"); simpl; reflexivity || exact Hd.
        -- intros q Hin Hq. apply in_app_or in Hin as [Hin|[<-|[]]]; auto.
      * right. exists i, p, d.
        assert (Hil : i < List.length posts) by (apply nth_error_Some; congruence).
        rewrite Hld. simpl.
        repeat split; auto.
        -- rewrite nth_error_app1 by exact Hil. exact Hi.
        -- apply nth_error_snoc in H as [[_ Hj]|[_ ->]]; [|congruence].
           apply (Hmax j q dq Hj H0 H1).
        -- apply nth_error_snoc in H as [[_ Hj]|[_ ->]]; [|congruence].
           apply (Hmax j q dq Hj H0 H1).
Qed.

End SelectionFacts.

(** The selection examples of the specification: two records of the same day
    and an older one, in both orders, and three records whose dates do not
    parse. *)
Example select_examples :
  latest_title
    (select [mk_post (Some "A") (Some "2024-01-05") None;
             mk_post (Some "B") (Some "5 January 2024") None;
             mk_post (Some "C") (Some "2023-12-01") None]) = "A"
  /\ latest_title
       (select [mk_post (Some "C") (Some "2023-12-01") None;
                mk_post (Some "B") (Some "5 January 2024") None;
                mk_post (Some "A") (Some "2024-01-05") None]) = "B"
  /\ latest_title
       (select [mk_post (Some "First") (Some "yesterday") None;
                mk_post (Some "Second") None None;
                mk_post (Some "Third") (Some "n/a") None]) = "First"
  /\ report [] = "0 posts found. Latest: None".
Proof. repeat split; vm_compute; reflexivity. Qed.

(** C2, as stated, fails: neither record below has a date that parses, the
    first record with a title is the first one, and the title reported is the
    second one's. *)
Lemma first_title_None_overwritten :
  let posts := [mk_post (Some "None") None None; mk_post (Some "B") None None] in
  (forall p, In p posts -> parsed_date p = None)
  /\ first_titled posts = Some (mk_post (Some "None") None None)
  /\ latest_title (select posts) = "B"
  /\ latest_title (select posts) <> title_str (mk_post (Some "None") None None).
Proof.
  repeat split.
  - intros p [<-|[<-|[]]]; reflexivity.
  - vm_compute. discriminate.
Qed.

(** C2, amended. When no record with a non-empty title has a date that
    parses, no date is tracked and the title reported is that of the first
    record whose title is non-empty and is not the word None (the word None
    itself when there is no such record); so it is the title of the first
    titled record whenever that title is not the word None.  And when the
    next record has a non-empty title and a date that parses, its title and
    date replace whatever was tracked. *)
Theorem fallback_first_title (posts : list post) :
  none_parsed posts ->
  latest_date (select posts) = None
  /\ latest_title (select posts) =
     match first_named posts with
     | Some p => title_str p
     | None => "None"
     end
  /\ (forall p0, first_titled posts = Some p0 -> title_str p0 <> "None" ->
        latest_title (select posts) = title_str p0)
  /\ (forall r d, truthy (title r) = true -> parsed_date r = Some d ->
        latest_title (select (posts ++ [r])) = title_str r
        /\ latest_date (select (posts ++ [r])) = Some d).
Proof.
  intros Hn. destruct (fallback_from posts init Hn eq_refl) as [Hd Ht].
  simpl in Ht. fold (select posts) in Hd, Ht.
  split; [exact Hd|]. split; [exact Ht|]. split.
  - intros p0 Hf Hne. rewrite Ht.
    assert (Hfn : first_named posts = Some p0).
    { clear Hn Hd Ht. unfold first_named, first_titled in *.
      induction posts as [|a posts IH]; simpl in *; [discriminate|].
      destruct (truthy (title a)) eqn:Ha; simpl.
      - injection Hf as ->.
        destruct (String.eqb_spec (title_str p0) "None"); [contradiction | reflexivity].
      - apply IH, Hf. }
    rewrite Hfn. reflexivity.
  - intros r d Hr Hp. unfold select. rewrite select_from_app.
    fold (select posts). rewrite step_titled by exact Hr.
    rewrite Hp, Hd. simpl. split; reflexivity.
Qed.

(** The witness of C2 amended: three records whose dates do not parse. *)
Lemma fallback_first_title_witness :
  latest_title
    (select [mk_post (Some "First") (Some "yesterday") None;
             mk_post (Some "Second") None None;
             mk_post (Some "Third") (Some "n/a") None])
  = title_str (mk_post (Some "First") (Some "yesterday") None).
Proof.
  refine (proj1 (proj2 (proj2 (fallback_first_title _ _))) _ _ _).
  - intros q [<-|[<-|[<-|[]]]] _; vm_compute; reflexivity.
  - reflexivity.
  - vm_compute. discriminate.
Defined.



(** C9. A record whose title is the empty string is passed over as one
    without a title is: the loop variables and the texts handed to
    [parse_post_date] stay as they were, so removing the record from the
    result set changes nothing of the selection; the title selected is never
    the empty string; and the extractor does emit such records, for a heading
    without text. *)
Theorem empty_title_skipped :
  (forall st p, title p = Some EmptyString ->
     step st p = st /\ step st p = step st (mk_post None (date p) (url p)))
  /\ (forall before p after,
        title p = Some EmptyString \/ title p = None ->
        select (before ++ p :: after) = select (before ++ after))
  /\ (forall posts, latest_title (select posts) <> EmptyString)
  /\ (let doc := soup [Elem "h2" [] []; Elem "time" [("datetime", "2024-01-05")] []] in
      extract doc = [mk_post (Some EmptyString) (Some "2024-01-05") None]
      /\ select (extract doc) = init).
Proof.
  split; [|split; [|split]].
  - intros st p Hp. unfold step. rewrite Hp. simpl. auto.
  - intros before p after Hp. apply select_from_skip.
    destruct Hp as [Hp|Hp]; rewrite Hp; reflexivity.
  - intros posts. apply select_from_title_nonempty. discriminate.
  - split; reflexivity.
Qed.

(** The witness of C9: a record with an empty title and the latest date,
    between two titled records. *)
Lemma empty_title_skipped_witness :
  select [mk_post (Some "A") (Some "2024-01-05") None;
          mk_post (Some EmptyString) (Some "2025-01-01") None;
          mk_post (Some "C") (Some "2023-12-01") None]
  = mk_sel "A" (Some (mk_datetime 2024 1 5)) ["2024-01-05"; "2023-12-01"].
Proof.
  eapply eq_trans.
  - exact (proj1 (proj2 empty_title_skipped)
             [mk_post (Some "A") (Some "2024-01-05") None]
             (mk_post (Some EmptyString) (Some "2025-01-01") None)
             [mk_post (Some "C") (Some "2023-12-01") None]
             (or_introl eq_refl)).
  - vm_compute. reflexivity.
Defined.

(** C10. The loop starts from the word None as title.  While no date has
    parsed, a titled record whose date does not parse takes the tracked title
    exactly when that title is the word None; so a record titled None is
    replaced by the next titled record, and the line printed for a selected
    record titled None is the line printed when no record has a title. *)
Theorem None_sentinel :
  latest_title init = "None"
  /\ (forall st p,
        latest_date st = None -> truthy (title p) = true -> parsed_date p = None ->
        latest_title (step st p) =
        if String.eqb (latest_title st) "None" then title_str p else latest_title st)
  /\ latest_title (select [mk_post (Some "None") None None;
                           mk_post (Some "B") None None]) = "B"
  /\ (forall posts,
        (forall p, In p posts -> truthy (title p) = false) ->
        report posts
        = (Str.of_nat (List.length posts) ++ " posts found. Latest: None")%string)
  /\ (latest_title (select [mk_post (Some "None") (Some "2024-01-05") None]) = "None"
      /\ latest_date (select [mk_post (Some "None") (Some "2024-01-05") None])
         = Some (mk_datetime 2024 1 5)
      /\ report [mk_post (Some "None") (Some "2024-01-05") None]
         = report [mk_post None None None]).
Proof.
  split; [reflexivity|]. split; [|split; [reflexivity|split]].
  - intros st p Hd Ht Hp. rewrite step_titled by exact Ht.
    rewrite Hp, Hd. simpl. destruct (String.eqb (latest_title st) "None"); reflexivity.
  - intros posts Hall. unfold report, select.
    rewrite select_from_untitled by exact Hall. reflexivity.
  - repeat split; vm_compute; reflexivity.
Qed.

(** The witness of C10: a record titled None followed by two titled ones;
    the second takes the place of the first and then stays. *)
Lemma None_sentinel_witness :
  latest_title
    (step (step (step init (mk_post (Some "None") None None))
                (mk_post (Some "B") None None))
          (mk_post (Some "C") None None)) = "B".
Proof.
  rewrite (proj1 (proj2 None_sentinel)) by reflexivity.
  reflexivity.
Defined.

(** ** The run *)

Section RunFacts.

Variable get : nat -> string -> exn + response.
Variable html_parser : string -> node.
Variable can_open : bool.

Lemma fetch_fails_raises (k : nat) (url : string) :
  fetch_fails get k url = true <->
  exists e, extract_posts get html_parser k url = inl e.
Proof.
  unfold fetch_fails, extract_posts, raise_for_status.
  destruct (get k url) as [e|r].
  - split; eauto.
  - destruct ((400 <=? status_code r) && (status_code r <? 600)).
    + split; eauto.
    + split; [discriminate | intros [e He]; discriminate].
Qed.

Lemma fetch_all_fails (urls : list string) :
  forall base all_posts k url,
    nth_error urls k = Some url ->
    fetch_fails get (base + k) url = true ->
    exists k0 url0 e,
      k0 <= k
      /\ nth_error urls k0 = Some url0
      /\ extract_posts get html_parser (base + k0) url0 = inl e
      /\ (forall j u, j < k0 -> nth_error urls j = Some u ->
            fetch_fails get (base + j) u = false)
      /\ fetch_all get html_parser base urls all_posts = (inl e, firstn (S k0) urls).
Proof.
  induction urls as [|u urls IH]; intros base all_posts k url Hk Hf.
  - destruct k; discriminate.
  - cbn [fetch_all].
    destruct (extract_posts get html_parser base u) as [e|ps] eqn:Hu.
    + exists 0, u, e. rewrite Nat.add_0_r.
      repeat split; auto; [lia | intros j w Hj; lia].
    + assert (Hok : fetch_fails get base u = false).
      { destruct (fetch_fails get base u) eqn:Hb; [|reflexivity].
        apply fetch_fails_raises in Hb as [e He]. congruence. }
      destruct k as [|k]; simpl in Hk.
      { injection Hk as <-. rewrite Nat.add_0_r in Hf. congruence. }
      rewrite Nat.add_succ_r in Hf.
      destruct (IH (S base) (all_posts ++ ps) k url Hk Hf)
        as [k0 [url0 [e [Hle [Hn [He [Hbefore Hall]]]]]]].
      exists (S k0), url0, e. rewrite Nat.add_succ_r.
      repeat split; auto; [lia | |].
      * intros j w Hj Hw. destruct j as [|j]; simpl in Hw.
        -- injection Hw as <-. rewrite Nat.add_0_r. exact Hok.
        -- rewrite Nat.add_succ_r. apply (Hbefore j w); [lia | exact Hw].
      * rewrite Hall. reflexivity.
Qed.

Lemma fetch_all_succeeds (urls : list string) :
  forall base all_posts,
    (forall j u, nth_error urls j = Some u -> fetch_fails get (base + j) u = false) ->
    exists ps,
      fetch_all get html_parser base urls all_posts = (inr (all_posts ++ ps), urls).
Proof.
  induction urls as [|u urls IH]; intros base all_posts Hok.
  - exists []. simpl. rewrite app_nil_r. reflexivity.
  - cbn [fetch_all].
    destruct (extract_posts get html_parser base u) as [e|ps] eqn:Hu.
    + assert (Hf : fetch_fails get base u = true)
        by (apply fetch_fails_raises; eauto).
      specialize (Hok 0 u eq_refl). rewrite Nat.add_0_r in Hok. congruence.
    + destruct (IH (S base) (all_posts ++ ps)) as [ps' Hps'].
      { intros j w Hj. replace (S base + j) with (base + S j) by lia.
        apply Hok. exact Hj. }
      rewrite Hps'. exists (ps ++ ps'). rewrite app_assoc. reflexivity.
Qed.

(** The other side: when every fetch succeeds and the file can be opened,
    the accumulated list is written and one line is printed. *)
Lemma run_succeeds (urls : list string) :
  (forall j u, nth_error urls j = Some u -> fetch_fails get j u = false) ->
  can_open = true ->
  exists all_posts,
    main get html_parser can_open urls
    = mk_outcome None (Some all_posts) [report all_posts] urls.
Proof.
  intros Hok Hopen.
  destruct (fetch_all_succeeds urls 0 [] Hok) as [ps Hps].
  exists ps. unfold main. rewrite Hps, Hopen. reflexivity.
Qed.

End RunFacts.

(** A network for the examples: the first page has one article, the second
    URL answers 404, any other URL does not resolve. *)
Example run_examples :
  let get := fun (k : nat) (url : string) =>
    if String.eqb url "https://a.example/blog" then inr (mk_response 200 "page a")
    else if String.eqb url "https://b.example/blog" then inr (mk_response 404 "not found")
    else inl RequestException in
  let html_parser := fun (markup : string) =>
    soup [Elem "article" [] [Elem "h2" [] [Text markup];
                             Elem "time" [] [Text "Jan 5, 2024"]]] in
  main get html_parser true ["https://a.example/blog"]
  = mk_outcome None (Some [mk_post (Some "page a") (Some "Jan 5, 2024") None])
               ["1 posts found. Latest: page a"] ["https://a.example/blog"]
  /\ main get html_parser true ["https://a.example/blog"; "https://b.example/blog";
                                "https://a.example/blog"]
     = mk_outcome (Some (HTTPError 404)) None []
                  ["https://a.example/blog"; "https://b.example/blog"]
  /\ main get html_parser true ["https://c.example/blog"]
     = mk_outcome (Some RequestException) None [] ["https://c.example/blog"].
Proof. repeat split; vm_compute; reflexivity. Qed.

(** C7, as stated, fails: the one URL below answers 304, a status outside
    200-299, and the run does not fail.  [raise_for_status] raises for the
    statuses 400 to 599 only, so the body is parsed, the file is written and
    the line is printed. *)
Lemma status_304_does_not_abort :
  let get := fun (k : nat) (url : string) => inr (mk_response 304 "T") in
  let html_parser := fun (markup : string) => soup [Elem "h2" [] [Text markup]] in
  let run := main get html_parser true ["https://a.example/blog"] in
  (200 <=? 304) && (304 <=? 299) = false
  /\ fetch_fails get 0 "https://a.example/blog" = false
  /\ raised run = None
  /\ written run = Some [mk_post (Some "T") None None]
  /\ printed run = ["1 posts found. Latest: T"].
Proof. vm_compute. repeat split. Qed.

(** C7, amended. If the fetch of some URL of the run fails ([requests.get]
    raises, or the status is a client or server error, 400 to 599), the run
    ends with the exception of the first fetch that fails: the file is not
    written, nothing is printed, so no record of any URL is kept, also of
    those fetched before; each URL up to that one was requested once and none
    after it. *)
Theorem fetch_failure_aborts_run
  (get : nat -> string -> exn + response) (html_parser : string -> node)
  (can_open : bool) (urls : list string) (k : nat) (url : string) :
  nth_error urls k = Some url ->
  fetch_fails get k url = true ->
  exists k0 url0 e,
    k0 <= k
    /\ nth_error urls k0 = Some url0
    /\ extract_posts get html_parser k0 url0 = inl e
    /\ (forall j u, j < k0 -> nth_error urls j = Some u -> fetch_fails get j u = false)
    /\ raised (main get html_parser can_open urls) = Some e
    /\ written (main get html_parser can_open urls) = None
    /\ printed (main get html_parser can_open urls) = []
    /\ requested (main get html_parser can_open urls) = firstn (S k0) urls.
Proof.
  intros Hk Hf.
  destruct (fetch_all_fails get html_parser urls 0 [] k url Hk Hf)
    as [k0 [url0 [e [Hle [Hn [He [Hbefore Hall]]]]]]].
  exists k0, url0, e. unfold main. rewrite Hall. simpl.
  repeat split; auto.
Qed.

(** The witness of C7: the second of three URLs answers 503. *)
Lemma fetch_failure_aborts_run_witness :
  let get := fun (k : nat) (url : string) =>
    if String.eqb url "https://b.example/blog" then inr (mk_response 503 "busy")
    else inr (mk_response 200 "ok") in
  let html_parser := fun (markup : string) => soup [Elem "h2" [] [Text markup]] in
  let urls := ["https://a.example/blog"; "https://b.example/blog";
               "https://c.example/blog"] in
  written (main get html_parser true urls) = None
  /\ printed (main get html_parser true urls) = [].
Proof.
  intros get html_parser urls.
  destruct (fetch_failure_aborts_run get html_parser true urls 1
              "https://b.example/blog" eq_refl eq_refl)
    as [k0 [url0 [e [_ [_ [_ [_ [_ [Hw [Hp _]]]]]]]]]].
  split; [exact Hw | exact Hp].
Defined.

(** * Further properties of the code *)

Import Pages.

(** ** Dates returned by [parse_post_date] *)

Section DateFacts.

Lemma strptime_valid (s fmt : string) (dt : datetime) :
  strptime s fmt = inr dt -> valid_date (year dt) (month dt) (day dt) = true.
Proof.
  unfold strptime.
  destruct (pattern false fmt) as [ts|]; [|discriminate].
  destruct (match_tokens ts s) as [|[gs rest] l]; [discriminate|].
  destruct (Str.nonempty rest); [discriminate|].
  destruct (fold_left convert_group gs _) as [f|]; [|discriminate].
  destruct (f_year f) as [y|].
  - destruct (valid_date y (f_month_ f) (f_day f)) eqn:Hv; simpl; [|discriminate].
    intros H. injection H as <-. exact Hv.
  - match goal with
    | |- (if ?a && ?b then _ else _) = _ -> _ =>
        destruct a; destruct b eqn:Hv; simpl; try discriminate
    end.
    intros H. injection H as <-. exact Hv.
Qed.

Lemma days_in_month_le (y m : nat) : days_in_month y m <= 31.
Proof.
  unfold days_in_month.
  do 12 (destruct m as [|m]; [try destruct (is_leap y); lia|]). lia.
Qed.

Lemma strip_all_space (s : string) :
  Str.all_space s = true -> Str.strip s = EmptyString.
Proof. intros H. unfold Str.strip. rewrite lstrip_all_space by exact H. reflexivity. Qed.

End DateFacts.

(** X1. A date returned by [parse_post_date] is a date of the calendar: the
    year is between 1 and 9999, the month between 1 and 12, and the day
    between 1 and the length of that month in that year (29 for February in
    leap years only). *)
Theorem parse_post_date_calendar (text : string) (dt : datetime) :
  parse_post_date text = Some dt ->
  1 <= year dt <= 9999
  /\ 1 <= month dt <= 12
  /\ 1 <= day dt <= days_in_month (year dt) (month dt)
  /\ days_in_month (year dt) (month dt) <= 31
  /\ (month dt = 2 -> day dt = 29 -> is_leap (year dt) = true).
Proof.
  intros H. apply try_formats_some in H as [i [fmt [_ [H _]]]].
  apply strptime_valid in H. unfold valid_date in H.
  repeat (apply andb_true_iff in H as [H ?]).
  repeat match goal with
         | Hl : (_ <=? _) = true |- _ => apply Nat.leb_le in Hl
         end.
  repeat split; try assumption; try apply days_in_month_le.
  intros Hm Hd. rewrite Hm, Hd in *. unfold days_in_month in *.
  destruct (is_leap (year dt)); [reflexivity | lia].
Qed.

(** The witness of X1: the leap day of 2024. *)
Lemma parse_post_date_calendar_witness :
  1 <= 2024 <= 9999 /\ 1 <= 2 <= 12 /\ 1 <= 29 <= days_in_month 2024 2
  /\ days_in_month 2024 2 <= 31 /\ (2 = 2 -> 29 = 29 -> is_leap 2024 = true).
Proof.
  apply (parse_post_date_calendar "29 February 2024" (mk_datetime 2024 2 29)).
  vm_compute. reflexivity.
Defined.

(** X2. A text of blanks only, the empty text included, has no date. *)
Theorem parse_post_date_blank (text : string) :
  Str.all_space text = true -> parse_post_date text = None.
Proof.
  intros H. apply try_formats_none. intros fmt Hin.
  rewrite (strip_all_space text H).
  unfold FORMATS in Hin. simpl in Hin.
  destruct Hin as [<-|[<-|[<-|[<-|[<-|[]]]]]]; vm_compute; eauto.
Qed.

(** The witness of X2: three spaces. *)
Lemma parse_post_date_blank_witness : parse_post_date "   " = None.
Proof. apply parse_post_date_blank. reflexivity. Defined.

(** ** Records of [extract_posts] *)

Section RecordFacts.

Import Str.

Lemma first_char_app (a b : string) :
  first_char (a ++ b) =
  match first_char a with
  | Some c => Some c
  | None => first_char b
  end.
Proof. destruct a; reflexivity. Qed.

Lemma last_char_cons (c : ascii) (s : string) :
  last_char (String c s) =
  match last_char s with
  | Some x => Some x
  | None => Some c
  end.
Proof.
  revert c. induction s as [|c' s IH]; intros c; [reflexivity|].
  change (last_char (String c (String c' s))) with (last_char (String c' s)).
  rewrite IH. destruct (last_char s); reflexivity.
Qed.

Lemma last_char_app (a b : string) :
  last_char (a ++ b) =
  match last_char b with
  | Some c => Some c
  | None => last_char a
  end.
Proof.
  induction a as [|c a IH].
  - simpl. destruct (last_char b); reflexivity.
  - change (String c a ++ b)%string with (String c (a ++ b)).
    rewrite !last_char_cons, IH.
    destruct (last_char b); [reflexivity|]. destruct (last_char a); reflexivity.
Qed.

Lemma trimmed_app (a b : string) :
  is_space_opt (first_char a) = false -> is_space_opt (last_char a) = false ->
  is_space_opt (first_char b) = false -> is_space_opt (last_char b) = false ->
  is_space_opt (first_char (a ++ b)) = false
  /\ is_space_opt (last_char (a ++ b)) = false.
Proof.
  intros Ha1 Ha2 Hb1 Hb2. rewrite first_char_app, last_char_app.
  split.
  - destruct (first_char a); assumption.
  - destruct (last_char b); assumption.
Qed.

Lemma trimmed_concat (l : list string) :
  Forall (fun s => is_space_opt (first_char s) = false
                   /\ is_space_opt (last_char s) = false) l ->
  is_space_opt (first_char (String.concat "" l)) = false
  /\ is_space_opt (last_char (String.concat "" l)) = false.
Proof.
  induction 1 as [|x l [Hx1 Hx2] Hl [IH1 IH2]]; [split; reflexivity|].
  destruct l as [|y l']; [split; assumption|].
  change (String.concat "" (x :: y :: l'))
    with (x ++ ("" ++ String.concat "" (y :: l')))%string.
  apply trimmed_app; assumption.
Qed.

Lemma stripped_strings_trimmed (n : node) :
  Forall (fun s => is_space_opt (first_char s) = false
                   /\ is_space_opt (last_char s) = false) (stripped_strings n).
Proof.
  induction n as [s|nm attrs cs IH] using node_forall_ind; simpl.
  - destruct (nonempty (strip s)); constructor; [|constructor].
    split; [apply strip_first | apply strip_last].
  - induction IH as [|c cs Hc _ IHcs]; simpl; [constructor|].
    apply Forall_app. split; assumption.
Qed.

Lemma get_text_trimmed (n : node) : strip (get_text n) = get_text n.
Proof.
  destruct n as [s|nm attrs cs]; [apply strip_idempotent|].
  unfold get_text.
  destruct (trimmed_concat _ (stripped_strings_trimmed (Elem nm attrs cs))) as [H1 H2].
  unfold strip. rewrite lstrip_fixed by exact H1. apply rstrip_fixed, H2.
Qed.

Lemma article_records_length (articles : list Tag) :
  List.length (flat_map article_record articles)
  = List.length (filter has_heading articles).
Proof.
  induction articles as [|a articles IH]; [reflexivity|].
  simpl. rewrite length_app, IH.
  unfold article_record, has_heading, find.
  destruct (find_all HEADINGS (elem a)); reflexivity.
Qed.

Lemma article_records_nil (articles : list Tag) :
  is_nil (flat_map article_record articles) = negb (existsb has_heading articles).
Proof.
  induction articles as [|a l IH]; [reflexivity|].
  simpl. unfold article_record at 1, has_heading at 1, find.
  destruct (find_all HEADINGS (elem a)); simpl; [exact IH | reflexivity].
Qed.

Lemma has_heading_record (article : Tag) :
  has_heading article = false <-> article_record article = [].
Proof.
  unfold article_record, has_heading, find.
  destruct (find_all HEADINGS (elem article)); simpl; split; congruence.
Qed.

Lemma descendants_trans (doc : node) :
  forall a h, In a (descendants doc) -> In h (descendants (elem a)) ->
              In h (descendants doc).
Proof.
  induction doc as [s|nm attrs cs IH] using node_forall_ind; intros a h Ha Hh.
  - destruct Ha.
  - cbn [descendants] in *. rewrite in_flat_map in *.
    destruct Ha as [c [Hc Ha]]. exists c. split; [exact Hc|].
    destruct Ha as [<-|Ha].
    + right. exact Hh.
    + right. rewrite Forall_forall in IH. apply (IH c Hc a h Ha Hh).
Qed.

Lemma h2_is_heading (t : Tag) : named ["h2"] t = true -> named HEADINGS t = true.
Proof.
  unfold named. destruct (name_of (elem t)) as [nm|]; [|discriminate].
  unfold HEADINGS. simpl. destruct (String.eqb nm "h2"); [|discriminate].
  intros _. rewrite orb_true_r. reflexivity.
Qed.

(** Every record is the record of a heading element of the page. *)
Lemma record_of_heading (doc : node) (p : post) :
  In p (extract doc) ->
  exists heading,
    In heading (descendants doc) /\ named HEADINGS heading = true
    /\ p = make_post heading.
Proof.
  rewrite extract_tiers. destruct (tier2_runs doc).
  - unfold tier2. rewrite in_map_iff. intros [h [<- Hh]].
    apply filter_In in Hh as [Hin Hn]. exists h. auto using h2_is_heading.
  - unfold tier1. rewrite in_flat_map. intros [a [Ha Hp]].
    apply filter_In in Ha as [Ha _]. unfold article_record in Hp.
    destruct (find HEADINGS (elem a)) as [h|] eqn:Hf; [|destruct Hp].
    destruct Hp as [<-|[]]. apply find_named in Hf as [Hn Hh].
    exists h. eauto using descendants_trans.
Qed.

End RecordFacts.

(** X3. The title of a record has no blank at either end: trimming it again
    changes nothing. *)
Theorem extract_title_trimmed (doc : node) (p : post) (t : string) :
  In p (extract doc) -> title p = Some t ->
  Str.strip t = t
  /\ Str.is_space_opt (Str.first_char t) = false
  /\ Str.is_space_opt (Str.last_char t) = false.
Proof.
  intros Hin Ht.
  assert (Hs : Str.strip t = t).
  { apply record_of_heading in Hin as [h [_ [_ ->]]].
    unfold make_post in Ht. simpl in Ht. injection Ht as <-.
    destruct (find ["a"] (elem h)); apply get_text_trimmed. }
  split; [exact Hs|]. rewrite <- Hs. split; [apply strip_first | apply strip_last].
Qed.

(** The witness of X3: a heading whose texts are padded with blanks; the
    pieces are trimmed one by one and joined without a separator. *)
Lemma extract_title_trimmed_witness :
  Str.strip "Helloworld" = "Helloworld"
  /\ Str.is_space_opt (Str.first_char "Helloworld") = false
  /\ Str.is_space_opt (Str.last_char "Helloworld") = false.
Proof.
  apply (extract_title_trimmed
           (soup [Elem "h2" [] [Text "  Hello "; Elem "b" [] [Text " world  "]]])
           (mk_post (Some "Helloworld") None None)).
  - left. reflexivity.
  - reflexivity.
Defined.

(** X4. [extract_posts] gives one record for each article that has a heading
    when there is such an article, and otherwise one record for each h2 of the
    page; so it never gives more records than the page has articles or h2
    elements. *)
Theorem extract_count (doc : node) :
  List.length (extract doc) =
  (if tier2_runs doc
   then List.length (find_all ["h2"] doc)
   else List.length (filter has_heading (find_all ["article"] doc)))
  /\ (tier2_runs doc = negb (existsb has_heading (find_all ["article"] doc)))
  /\ List.length (extract doc)
     <= Nat.max (List.length (find_all ["article"] doc))
                (List.length (find_all ["h2"] doc)).
Proof.
  assert (Hlen : List.length (extract doc) =
                 if tier2_runs doc
                 then List.length (find_all ["h2"] doc)
                 else List.length (filter has_heading (find_all ["article"] doc))).
  { rewrite extract_tiers. destruct (tier2_runs doc).
    - unfold tier2. apply length_map.
    - unfold tier1. apply article_records_length. }
  split; [exact Hlen|]. split.
  - unfold tier2_runs. rewrite posts_after_tier1. unfold tier1.
    fold (find_all ["article"] doc). apply article_records_nil.
  - rewrite Hlen. destruct (tier2_runs doc); [lia|].
    pose proof (filter_length_le has_heading (find_all ["article"] doc)). lia.
Qed.

(** X5. [extract_posts] gives no record exactly when no article of the page
    has a heading and the page has no h2. *)
Theorem extract_empty_iff (doc : node) :
  extract doc = [] <->
  (forall article, In article (find_all ["article"] doc) -> has_heading article = false)
  /\ find_all ["h2"] doc = [].
Proof.
  assert (H1 : tier1 doc = [] <->
               forall article, In article (find_all ["article"] doc) ->
                               has_heading article = false).
  { unfold tier1. fold (find_all ["article"] doc). rewrite flat_map_nil_iff.
    split; intros H a Ha; apply has_heading_record, H, Ha. }
  rewrite extract_tiers. unfold tier2_runs. rewrite posts_after_tier1.
  destruct (tier1 doc) as [|p ps] eqn:Ht; simpl.
  - unfold tier2. fold (find_all ["h2"] doc). split.
    + intros Hm. split; [apply H1; reflexivity|].
      destruct (find_all ["h2"] doc); [reflexivity | discriminate].
    + intros [_ ->]. reflexivity.
  - split; [discriminate|]. intros [Hno _].
    apply H1 in Hno. discriminate.
Qed.

(** The witness of X5: a page with headings of other levels outside articles
    and an article without heading. *)
Lemma extract_empty_iff_witness :
  extract (soup [Elem "h1" [] [Text "Blog"];
                 Elem "article" [] [Elem "p" [] [Text "x"]];
                 Elem "h3" [] [Text "Older"]]) = [].
Proof.
  apply extract_empty_iff. split.
  - intros a [<-|[]]. reflexivity.
  - reflexivity.
Defined.

(** X6. Every record comes from a heading element of the page: it is the
    record built for some h1 to h6 element among the descendants of the root
    with, as title, the trimmed text of the first link inside that heading,
    or of the heading itself when it has no link. *)
Theorem extract_provenance (doc : node) (p : post) :
  In p (extract doc) ->
  exists heading,
    In heading (descendants doc)
    /\ named HEADINGS heading = true
    /\ p = make_post heading
    /\ title p = Some (match find ["a"] (elem heading) with
                       | Some link => get_text (elem link)
                       | None => get_text (elem heading)
                       end)
    /\ url p = match find ["a"] (elem heading) with
               | Some link => get_attr "href" (attrs_of (elem link))
               | None => None
               end.
Proof.
  intros Hin. apply record_of_heading in Hin as [h [Hd [Hn ->]]].
  exists h. repeat split; auto;
    unfold make_post; simpl; destruct (find ["a"] (elem h)); reflexivity.
Qed.

(** The witness of X6: the article example of the specification. *)
Lemma extract_provenance_witness :
  exists heading,
    In heading
       (descendants
          (soup [Elem "article" []
                   [Elem "h2" [] [Elem "a" [("href", "/p1")] [Text "Hello"]];
                    Elem "time" [("datetime", "2024-01-05")] []]]))
    /\ named HEADINGS heading = true
    /\ mk_post (Some "Hello") (Some "2024-01-05") (Some "/p1") = make_post heading.
Proof.
  destruct (extract_provenance
              (soup [Elem "article" []
                       [Elem "h2" [] [Elem "a" [("href", "/p1")] [Text "Hello"]];
                        Elem "time" [("datetime", "2024-01-05")] []]])
              (mk_post (Some "Hello") (Some "2024-01-05") (Some "/p1"))
              (or_introl eq_refl)) as [h [H1 [H2 [H3 _]]]].
  exists h. auto.
Defined.

(** X7. On a page without articles whose h2 elements are all children of the
    root, every record carries the same date: the one read off the first time
    element of the whole page. *)
Theorem flat_page_one_date (doc : node) :
  find_all ["article"] doc = [] ->
  (forall h2, In h2 (find_all ["h2"] doc) -> parent h2 = Some doc) ->
  forall p, In p (extract doc) -> date p = date_text_in (Some doc).
Proof.
  intros Hna Hflat p Hin.
  assert (He : extract doc = tier2 doc).
  { rewrite extract_tiers. unfold tier2_runs. rewrite Hna. reflexivity. }
  rewrite He in Hin. unfold tier2 in Hin. apply in_map_iff in Hin as [h [<- Hh]].
  fold (find_all ["h2"] doc) in Hh.
  rewrite heading_date_scope.
  - rewrite (Hflat h Hh). reflexivity.
  - apply h2_is_heading. apply filter_In in Hh. tauto.
Qed.

(** The witness of X7: two h2 each followed by its own time element; both
    records get the first date. *)
Lemma flat_page_one_date_witness :
  let doc := soup [Elem "h2" [] [Text "A"]; Elem "time" [] [Text "2024-01-05"];
                   Elem "h2" [] [Text "B"]; Elem "time" [] [Text "2023-12-01"]] in
  date (mk_post (Some "B") (Some "2024-01-05") None) = date_text_in (Some doc).
Proof.
  intros doc. apply (flat_page_one_date doc).
  - reflexivity.
  - intros h [<-|[<-|[]]]; reflexivity.
  - right. left. reflexivity.
Defined.

(** ** The selection loop *)

Section SelectionMore.

Ltac dt_lia :=
  unfold dt_leb, dt_gtb in *;
  repeat match goal with
         | H : negb _ = true |- _ => apply negb_true_iff in H
         | H : negb _ = false |- _ => apply negb_false_iff in H
         | |- negb _ = true => apply negb_true_iff
         | |- negb _ = false => apply negb_false_iff
         end;
  repeat match goal with
         | H : dt_ltb _ _ = true |- _ => apply dt_ltb_true in H
         | H : dt_ltb _ _ = false |- _ => apply dt_ltb_false in H
         | |- dt_ltb _ _ = true => apply dt_ltb_true
         | |- dt_ltb _ _ = false => apply dt_ltb_false
         end;
  unfold dt_lt in *; lia.

Lemma dt_leb_refl (a : datetime) : dt_leb a a = true.
Proof. dt_lia. Qed.

Lemma dt_leb_trans (a b c : datetime) :
  dt_leb a b = true -> dt_leb b c = true -> dt_leb a c = true.
Proof. intros H1 H2. dt_lia. Qed.

Lemma dt_gtb_leb (a b : datetime) : dt_gtb b a = true -> dt_leb a b = true.
Proof. intros H. dt_lia. Qed.



Lemma step_date_grows (st : sel) (p : post) (d : datetime) :
  latest_date st = Some d ->
  exists d', latest_date (step st p) = Some d' /\ dt_leb d d' = true.
Proof.
  intros Hd. destruct (truthy (title p)) eqn:Ht.
  - rewrite step_titled by exact Ht. rewrite Hd.
    destruct (parsed_date p) as [dr|]; simpl.
    + destruct (dt_gtb dr d) eqn:Hgt; simpl.
      * exists dr. split; [reflexivity | apply dt_gtb_leb, Hgt].
      * exists d. split; [reflexivity | apply dt_leb_refl].
    + exists d. split; [reflexivity | apply dt_leb_refl].
  - rewrite step_untitled by exact Ht. exists d. split; [exact Hd | apply dt_leb_refl].
Qed.

Lemma select_from_date_grows (posts : list post) (st : sel) (d : datetime) :
  latest_date st = Some d ->
  exists d', latest_date (select_from st posts) = Some d' /\ dt_leb d d' = true.
Proof.
  revert st d. induction posts as [|a posts IH]; intros st d Hd.
  - exists d. split; [exact Hd | apply dt_leb_refl].
  - change (select_from st (a :: posts)) with (select_from (step st a) posts).
    destruct (step_date_grows st a d Hd) as [d1 [H1 Hle1]].
    destruct (IH (step st a) d1 H1) as [d2 [H2 Hle2]].
    exists d2. split; [exact H2 | exact (dt_leb_trans _ _ _ Hle1 Hle2)].
Qed.

End SelectionMore.


(** X9. The tracked date never moves back: once the loop tracks a date, after
    any further records it tracks a date that is the same or later. *)
Theorem tracked_date_grows (before after : list post) (d : datetime) :
  latest_date (select before) = Some d ->
  exists d',
    latest_date (select (before ++ after)) = Some d' /\ dt_leb d d' = true.
Proof.
  intros Hd. unfold select, select_from in *. rewrite fold_left_app.
  apply (select_from_date_grows after _ d Hd).
Qed.

(** The witness of X9: a record of 2024 followed by an older and a newer
    one. *)
Lemma tracked_date_grows_witness :
  exists d',
    latest_date (select ([mk_post (Some "A") (Some "2024-01-05") None]
                         ++ [mk_post (Some "B") (Some "2023-12-01") None;
                             mk_post (Some "C") (Some "Feb 1, 2024") None])) = Some d'
    /\ dt_leb (mk_datetime 2024 1 5) d' = true.
Proof.
  apply tracked_date_grows. vm_compute. reflexivity.
Defined.

(** ** The run as a whole *)

Section RunMore.

Variable get : nat -> string -> exn + response.
Variable html_parser : string -> node.
Variable can_open : bool.

Lemma accumulated_from_cons (base : nat) (url : string) (urls : list string) :
  accumulated_from get html_parser base (url :: urls)
  = page_posts get html_parser base url
    ++ accumulated_from get html_parser (S base) urls.
Proof. reflexivity. Qed.

Lemma fetch_all_inr (urls : list string) :
  forall base all_posts ps reqs,
    fetch_all get html_parser base urls all_posts = (inr ps, reqs) ->
    ps = all_posts ++ accumulated_from get html_parser base urls
    /\ reqs = urls
    /\ forall j u, nth_error urls j = Some u -> fetch_fails get (base + j) u = false.
Proof.
  induction urls as [|u urls IH]; intros base all_posts ps reqs H.
  - simpl in H. injection H as <- <-. rewrite app_nil_r.
    repeat split. intros j w Hj. destruct j; discriminate.
  - cbn [fetch_all] in H. rewrite accumulated_from_cons. unfold page_posts.
    destruct (extract_posts get html_parser base u) as [e|p0] eqn:Hu; [discriminate|].
    destruct (fetch_all get html_parser (S base) urls (all_posts ++ p0))
      as [r reqs'] eqn:Hrest.
    injection H as -> <-.
    destruct (IH _ _ _ _ Hrest) as [Hps [Hreqs Hok]].
    rewrite Hps, Hreqs, app_assoc. repeat split.
    intros j w Hj. destruct j as [|j]; simpl in Hj.
    + injection Hj as <-. rewrite Nat.add_0_r.
      destruct (fetch_fails get base u) eqn:Hf; [|reflexivity].
      apply (fetch_fails_raises get html_parser) in Hf as [e He]. congruence.
    + rewrite Nat.add_succ_r. apply (Hok j w Hj).
Qed.


End RunMore.

(** X10. When the run ends without exception, the list written to the file
    is the concatenation, in the order of the URLs, of the records extracted
    from each page (nothing dropped, merged or sorted), every URL was
    requested once in that order, and the one line printed gives the length
    of that list and the title selected from it. *)
Theorem run_accumulates
  (get : nat -> string -> exn + response) (html_parser : string -> node)
  (can_open : bool) (urls : list string) :
  raised (main get html_parser can_open urls) = None ->
  written (main get html_parser can_open urls)
  = Some (accumulated get html_parser urls)
  /\ printed (main get html_parser can_open urls)
     = [(Str.of_nat (List.length (accumulated get html_parser urls))
         ++ " posts found. Latest: "
         ++ latest_title (select (accumulated get html_parser urls)))%string]
  /\ requested (main get html_parser can_open urls) = urls.
Proof.
  unfold main.
  destruct (fetch_all get html_parser 0 urls []) as [[e|ps] reqs] eqn:Hf;
    [discriminate|].
  destruct (fetch_all_inr get html_parser urls 0 [] ps reqs Hf) as [-> [-> _]].
  destruct can_open; [|discriminate].
  intros _. repeat split.
Qed.

(** The witness of X10: two pages with one h2 each. *)
Lemma run_accumulates_witness :
  let get := fun (k : nat) (url : string) => inr (mk_response 200 url) in
  let html_parser := fun (markup : string) => soup [Elem "h2" [] [Text markup]] in
  printed (main get html_parser true ["b"; "a"]) = ["2 posts found. Latest: b"].
Proof.
  intros get html_parser.
  destruct (run_accumulates get html_parser true ["b"; "a"] eq_refl) as [_ [Hp _]].
  rewrite Hp. vm_compute. reflexivity.
Defined.



(** ** Texts accepted by [parse_post_date] *)

Import DateTexts.

Section CharFacts.

Lemma all_ascii_complete (c : ascii) : In c all_ascii.
Proof.
  unfold all_ascii. rewrite <- (ascii_nat_embedding c). apply in_map.
  apply in_seq. split; [apply Nat.le_0_l | apply nat_ascii_bounded].
Qed.

Lemma class_within_sound (allowed p : charclass) :
  class_within allowed p = true -> forall c, p c = true -> allowed c = true.
Proof.
  unfold class_within. rewrite forallb_forall. intros H c Hp.
  specialize (H c (all_ascii_complete c)). rewrite Hp in H. exact H.
Qed.

Lemma class_caseless_sound (p : charclass) :
  class_caseless p = true -> forall c, p (Str.lower_char c) = p c.
Proof.
  unfold class_caseless. rewrite forallb_forall. intros H c.
  apply eqb_prop, H, all_ascii_complete.
Qed.

Lemma all_chars_app (p : charclass) (a b : string) :
  all_chars p (a ++ b) = all_chars p a && all_chars p b.
Proof.
  induction a as [|c a IH]; simpl; [reflexivity|].
  rewrite IH, andb_assoc. reflexivity.
Qed.

Lemma match_classes_split (allowed : charclass) (cls : list charclass) :
  forallb (class_within allowed) cls = true ->
  forall s m r, match_classes cls s = Some (m, r) ->
                s = (m ++ r)%string /\ all_chars allowed m = true.
Proof.
  induction cls as [|p cls IH]; intros Hall s m r H; simpl in H.
  - injection H as <- <-. split; reflexivity.
  - simpl in Hall. apply andb_true_iff in Hall as [Hp Hcls].
    destruct s as [|c s]; [discriminate|].
    destruct (p c) eqn:Hpc; [|discriminate].
    destruct (match_classes cls s) as [[m' r']|] eqn:Hm; [|discriminate].
    injection H as <- <-. destruct (IH Hcls s m' r' Hm) as [-> Hm'].
    split; [reflexivity|]. simpl.
    rewrite (class_within_sound allowed p Hp c Hpc), Hm'. reflexivity.
Qed.

Lemma match_alts_split (allowed : charclass) (alts : list (list charclass)) :
  forallb (forallb (class_within allowed)) alts = true ->
  forall s m r, In (m, r) (match_alts alts s) ->
                s = (m ++ r)%string /\ all_chars allowed m = true.
Proof.
  induction alts as [|a alts IH]; intros Hall s m r H; simpl in H; [destruct H|].
  simpl in Hall. apply andb_true_iff in Hall as [Ha Halts].
  destruct (match_classes a s) as [[m' r']|] eqn:Hm.
  - destruct H as [H|H].
    + injection H as <- <-. apply (match_classes_split allowed a Ha s m' r' Hm).
    + apply (IH Halts s m r H).
  - apply (IH Halts s m r H).
Qed.

Lemma match_spaces_split (s r : string) :
  In r (match_spaces s) ->
  exists m, s = (m ++ r)%string /\ all_chars Str.isspace m = true.
Proof.
  revert r. induction s as [|c s IH]; intros r H; simpl in H; [destruct H|].
  destruct (Str.isspace c) eqn:Hc; [|destruct H].
  apply in_app_or in H as [H|[<-|[]]].
  - destruct (IH r H) as [m [-> Hm]]. exists (String c m). simpl.
    rewrite Hc, Hm. split; reflexivity.
  - exists (String c EmptyString). simpl. rewrite Hc. split; reflexivity.
Qed.

Lemma all_chars_within (allowed p : charclass) (m : string) :
  class_within allowed p = true -> all_chars p m = true ->
  all_chars allowed m = true.
Proof.
  intros Hw. induction m as [|c m IH]; simpl; [reflexivity|].
  intros H. apply andb_true_iff in H as [Hc Hm].
  rewrite (class_within_sound allowed p Hw c Hc), (IH Hm). reflexivity.
Qed.

Lemma match_token_split (allowed : charclass) (t : token) :
  token_within allowed t = true ->
  forall s g r, In (g, r) (match_token t s) ->
                exists m, s = (m ++ r)%string /\ all_chars allowed m = true.
Proof.
  intros Ht s g r H. destruct t as [name alts| |c]; simpl in *.
  - apply in_map_iff in H as [[m r'] [Heq Hin]]. simpl in Heq.
    injection Heq as _ <-. exists m. apply (match_alts_split allowed alts Ht s m r' Hin).
  - apply in_map_iff in H as [r' [Heq Hin]]. injection Heq as _ <-.
    destruct (match_spaces_split s r' Hin) as [m [Hs Hm]].
    exists m. split; [exact Hs|]. apply (all_chars_within allowed Str.isspace m Ht Hm).
  - destruct s as [|x s]; [destruct H|].
    destruct (ci_char c x) eqn:Hx; [|destruct H].
    destruct H as [H|[]]. injection H as _ <-.
    exists (String x EmptyString). simpl.
    rewrite (class_within_sound allowed (ci_char c) Ht x Hx). split; reflexivity.
Qed.

Lemma match_tokens_split (allowed : charclass) (ts : list token) :
  forallb (token_within allowed) ts = true ->
  forall s g r, In (g, r) (match_tokens ts s) ->
                exists m, s = (m ++ r)%string /\ all_chars allowed m = true.
Proof.
  induction ts as [|t ts IH]; intros Hall s g r H; simpl in H.
  - destruct H as [H|[]]. injection H as _ <-. exists EmptyString. split; reflexivity.
  - simpl in Hall. apply andb_true_iff in Hall as [Ht Hts].
    apply in_flat_map in H as [[g1 r1] [H1 H2]].
    apply in_map_iff in H2 as [[g2 r2] [Heq H2]]. simpl in Heq.
    injection Heq as _ <-.
    destruct (match_token_split allowed t Ht s g1 r1 H1) as [m1 [-> Hm1]].
    destruct (IH Hts r1 g2 r2 H2) as [m2 [-> Hm2]].
    exists (m1 ++ m2)%string. rewrite all_chars_app, Hm1, Hm2.
    split; [|reflexivity].
    clear. induction m1 as [|c m1 IHm]; simpl; [reflexivity | rewrite IHm; reflexivity].
Qed.

Lemma nonempty_false (s : string) : Str.nonempty s = false -> s = EmptyString.
Proof.
  unfold Str.nonempty. destruct (String.eqb_spec s ""); [auto | discriminate].
Qed.

Lemma formats_within (fmt : string) :
  In fmt FORMATS ->
  exists ts, pattern false fmt = Some ts
             /\ forallb (token_within date_char) ts = true
             /\ forallb token_caseless ts = true.
Proof.
  unfold FORMATS. simpl.
  intros [<-|[<-|[<-|[<-|[<-|[]]]]]]; eexists;
    (split; [reflexivity | split; vm_compute; reflexivity]).
Qed.

End CharFacts.

(** X12. A text that has a date is made, once trimmed, of digits, letters,
    blanks, hyphens and commas only: a text with any other character, such as
    the colon of a time of day, a slash or a dot, has none. *)
Theorem parse_post_date_charset (text : string) (dt : datetime) :
  parse_post_date text = Some dt ->
  all_chars date_char (Str.strip text) = true.
Proof.
  intros H. apply try_formats_some in H as [i [fmt [Hi [H _]]]].
  apply nth_error_In in Hi. destruct (formats_within fmt Hi) as [ts [Hp [Hw _]]].
  unfold strptime in H. rewrite Hp in H.
  destruct (match_tokens ts (Str.strip text)) as [|[gs rest] l] eqn:Hm; [discriminate|].
  destruct (Str.nonempty rest) eqn:Hr; [discriminate|].
  apply nonempty_false in Hr. subst rest.
  destruct (match_tokens_split date_char ts Hw (Str.strip text) gs EmptyString)
    as [m [Hs Hall]].
  { rewrite Hm. left. reflexivity. }
  rewrite Hs, all_chars_app, Hall. reflexivity.
Qed.

(** The witness of X12 on a text that has a date. *)
Lemma parse_post_date_charset_witness :
  all_chars date_char (Str.strip " Jan 5, 2024 ") = true.
Proof.
  apply (parse_post_date_charset " Jan 5, 2024 " (mk_datetime 2024 1 5)).
  vm_compute. reflexivity.
Defined.

Section CaseFacts.

Import Str.

Lemma lower_char_facts (c : ascii) :
  lower_char (lower_char c) = lower_char c
  /\ isspace (lower_char c) = isspace c
  /\ isdigit (lower_char c) = isdigit c
  /\ (isdigit c = true -> lower_char c = c).
Proof.
  assert (H : forallb (fun c =>
                Ascii.eqb (lower_char (lower_char c)) (lower_char c)
                && Bool.eqb (isspace (lower_char c)) (isspace c)
                && Bool.eqb (isdigit (lower_char c)) (isdigit c)
                && implb (isdigit c) (Ascii.eqb (lower_char c) c)) all_ascii = true)
    by (vm_compute; reflexivity).
  rewrite forallb_forall in H. specialize (H c (all_ascii_complete c)).
  repeat (apply andb_true_iff in H as [H ?]).
  repeat split.
  - apply Ascii.eqb_eq. assumption.
  - apply eqb_prop. assumption.
  - apply eqb_prop. assumption.
  - intros Hd. rewrite Hd in *. apply Ascii.eqb_eq. assumption.
Qed.

Lemma lower_idempotent (s : string) : lower (lower s) = lower s.
Proof.
  induction s as [|c s IH]; simpl; [reflexivity|].
  rewrite IH, (proj1 (lower_char_facts c)). reflexivity.
Qed.

Lemma lower_empty (s : string) : String.eqb (lower s) "" = String.eqb s "".
Proof. destruct s; reflexivity. Qed.

Lemma lstrip_lower (s : string) : lstrip (lower s) = lower (lstrip s).
Proof.
  induction s as [|c s IH]; simpl; [reflexivity|].
  rewrite (proj1 (proj2 (lower_char_facts c))).
  destruct (isspace c); [exact IH | reflexivity].
Qed.

Lemma rstrip_lower (s : string) : rstrip (lower s) = lower (rstrip s).
Proof.
  induction s as [|c s IH]; simpl; [reflexivity|].
  rewrite IH, lower_empty, (proj1 (proj2 (lower_char_facts c))).
  destruct (isspace c && String.eqb (rstrip s) ""); reflexivity.
Qed.

Lemma strip_lower (s : string) : strip (lower s) = lower (strip s).
Proof. unfold strip. rewrite lstrip_lower, rstrip_lower. reflexivity. Qed.

Lemma ci_char_lower (c x : ascii) : ci_char c (lower_char x) = ci_char c x.
Proof. unfold ci_char. rewrite (proj1 (lower_char_facts x)). reflexivity. Qed.

Lemma match_classes_lower (cls : list charclass) :
  forallb class_caseless cls = true ->
  forall s,
    match_classes cls (lower s)
    = option_map (fun mr => (lower (fst mr), lower (snd mr))) (match_classes cls s).
Proof.
  induction cls as [|p cls IH]; intros Hall s; simpl; [reflexivity|].
  simpl in Hall. apply andb_true_iff in Hall as [Hp Hcls].
  destruct s as [|c s]; simpl; [reflexivity|].
  rewrite (class_caseless_sound p Hp c). destruct (p c); [|reflexivity].
  rewrite (IH Hcls s). destruct (match_classes cls s) as [[m r]|]; reflexivity.
Qed.

Lemma match_alts_lower (alts : list (list charclass)) :
  forallb (forallb class_caseless) alts = true ->
  forall s,
    match_alts alts (lower s)
    = map (fun mr => (lower (fst mr), lower (snd mr))) (match_alts alts s).
Proof.
  induction alts as [|a alts IH]; intros Hall s; simpl; [reflexivity|].
  simpl in Hall. apply andb_true_iff in Hall as [Ha Halts].
  rewrite (match_classes_lower a Ha s), (IH Halts s).
  destruct (match_classes a s) as [[m r]|]; reflexivity.
Qed.

Lemma match_spaces_lower (s : string) :
  match_spaces (lower s) = map lower (match_spaces s).
Proof.
  induction s as [|c s IH]; simpl; [reflexivity|].
  rewrite (proj1 (proj2 (lower_char_facts c))).
  destruct (isspace c); [|reflexivity].
  rewrite IH, map_app. reflexivity.
Qed.

Lemma match_token_lower (t : token) :
  token_caseless t = true ->
  forall s, match_token t (lower s) = map lower_result (match_token t s).
Proof.
  intros Ht s. destruct t as [name alts| |c]; simpl in *.
  - rewrite (match_alts_lower alts Ht s), !map_map. reflexivity.
  - rewrite match_spaces_lower, !map_map. reflexivity.
  - destruct s as [|x s]; simpl; [reflexivity|].
    rewrite ci_char_lower. destruct (ci_char c x); reflexivity.
Qed.

Lemma lower_groups_app (g1 g2 : groups) :
  lower_groups (g1 ++ g2) = lower_groups g1 ++ lower_groups g2.
Proof. apply map_app. Qed.

Lemma match_tokens_lower (ts : list token) :
  forallb token_caseless ts = true ->
  forall s, match_tokens ts (lower s) = map lower_result (match_tokens ts s).
Proof.
  induction ts as [|t ts IH]; intros Hall s; simpl; [reflexivity|].
  simpl in Hall. apply andb_true_iff in Hall as [Ht Hts].
  rewrite (match_token_lower t Ht s).
  induction (match_token t s) as [|[g r] l IHl]; simpl; [reflexivity|].
  rewrite map_app, IHl. f_equal.
  rewrite (IH Hts r), !map_map. apply map_ext. intros [g' r'].
  unfold lower_result. simpl. rewrite lower_groups_app. reflexivity.
Qed.

Lemma int_acc_lower (s : string) (acc : nat) :
  int_acc acc (lower s) = int_acc acc s.
Proof.
  revert acc. induction s as [|c s IH]; intros acc; simpl; [reflexivity|].
  destruct (lower_char_facts c) as [_ [_ [Hd Hfix]]]. rewrite Hd.
  destruct (isdigit c) eqn:Hc; [|apply IH].
  rewrite (Hfix eq_refl). apply IH.
Qed.

Lemma convert_group_lower (fs : option fields) (g : ascii * string) :
  convert_group fs (fst g, lower (snd g)) = convert_group fs g.
Proof.
  destruct g as [name v]. unfold convert_group. simpl.
  destruct fs as [f|]; [|reflexivity].
  unfold int. rewrite int_acc_lower, lower_idempotent. reflexivity.
Qed.

Lemma fold_convert_lower (gs : groups) (fs : option fields) :
  fold_left convert_group (lower_groups gs) fs = fold_left convert_group gs fs.
Proof.
  revert fs. induction gs as [|g gs IH]; intros fs; simpl; [reflexivity|].
  rewrite convert_group_lower. apply IH.
Qed.

Lemma strptime_lower (s fmt : string) :
  In fmt FORMATS -> strptime (lower s) fmt = strptime s fmt.
Proof.
  intros Hin. destruct (formats_within fmt Hin) as [ts [Hp [_ Hc]]].
  unfold strptime. rewrite Hp, (match_tokens_lower ts Hc s).
  destruct (match_tokens ts s) as [|[gs rest] l]; simpl; [reflexivity|].
  unfold nonempty. rewrite lower_empty, fold_convert_lower. reflexivity.
Qed.

Lemma try_formats_lower (fmts : list string) (text : string) :
  (forall fmt, In fmt fmts -> In fmt FORMATS) ->
  try_formats fmts (lower text) = try_formats fmts text.
Proof.
  induction fmts as [|f fmts IH]; intros Hsub; simpl; [reflexivity|].
  rewrite strip_lower, strptime_lower by (apply Hsub; left; reflexivity).
  rewrite IH by (intros g Hg; apply Hsub; right; exact Hg). reflexivity.
Qed.

End CaseFacts.

(** X13. The case of letters does not matter: two texts that differ in the
    case of their letters only have the same date, or both have none. *)
Theorem parse_post_date_caseless (text1 text2 : string) :
  Str.lower text1 = Str.lower text2 ->
  parse_post_date text1 = parse_post_date text2.
Proof.
  intros H. unfold parse_post_date.
  rewrite <- (try_formats_lower FORMATS text1), <- (try_formats_lower FORMATS text2)
    by (intros fmt Hin; exact Hin).
  rewrite H. reflexivity.
Qed.

(** The witness of X13: a month name in capitals. *)
Lemma parse_post_date_caseless_witness :
  parse_post_date "5 JANUARY 2024" = parse_post_date "5 January 2024".
Proof. apply parse_post_date_caseless. reflexivity. Defined.

(** ** Round trip of the date shapes *)

Section RoundTrip.

Import Str.

Lemma digit_char_facts (n : nat) :
  n < 10 ->
  isdigit (digit_char n) = true /\ digit_val (digit_char n) = n
  /\ isspace (digit_char n) = false.
Proof.
  intros H. do 10 (destruct n as [|n]; [repeat split|]). lia.
Qed.

Lemma isdigit_not_space (c : ascii) : isdigit c = true -> isspace c = false.
Proof.
  assert (H : forallb (fun c => implb (isdigit c) (negb (isspace c))) all_ascii = true)
    by (vm_compute; reflexivity).
  rewrite forallb_forall in H. specialize (H c (all_ascii_complete c)).
  intros Hd. rewrite Hd in H. apply negb_true_iff. exact H.
Qed.

Lemma int_acc_app (s1 s2 : string) (acc : nat) :
  int_acc acc (s1 ++ s2) = int_acc (int_acc acc s1) s2.
Proof.
  revert acc. induction s1 as [|c s1 IH]; intros acc; simpl; [reflexivity|].
  destruct (isdigit c); apply IH.
Qed.

Lemma pad2_facts (n : nat) :
  n < 100 ->
  all_chars isdigit (pad2 n) = true
  /\ forall acc, int_acc acc (pad2 n) = 100 * acc + n.
Proof.
  intros H.
  assert (H1 : n / 10 < 10) by (apply Nat.Div0.div_lt_upper_bound; lia).
  assert (H2 : n mod 10 < 10) by (apply Nat.mod_upper_bound; lia).
  pose proof (Nat.div_mod_eq n 10) as Hn.
  unfold pad2. set (a := n / 10) in *. set (b := n mod 10) in *.
  destruct (digit_char_facts a H1) as [Ha [Va _]].
  destruct (digit_char_facts b H2) as [Hb [Vb _]].
  cbn [all_chars int_acc]. rewrite Ha, Hb, Va, Vb. split; [reflexivity|].
  intros acc. lia.
Qed.

Lemma pad4_facts (y : nat) :
  y < 100 * 100 ->
  year_text (pad4 y) = true /\ int (pad4 y) = y
  /\ all_chars isdigit (pad4 y) = true.
Proof.
  intros H.
  assert (H1 : y / 100 < 100) by (apply Nat.Div0.div_lt_upper_bound; lia).
  assert (H2 : y mod 100 < 100) by (apply Nat.mod_upper_bound; lia).
  pose proof (Nat.div_mod_eq y 100) as Hy.
  unfold pad4. set (a := y / 100) in *. set (b := y mod 100) in *.
  destruct (pad2_facts a H1) as [Da Ia]. destruct (pad2_facts b H2) as [Db Ib].
  assert (Hall : all_chars isdigit (pad2 a ++ pad2 b) = true).
  { rewrite all_chars_app, Da, Db. reflexivity. }
  split; [|split; [|exact Hall]].
  - revert Hall. unfold pad2. cbn [String.append all_chars year_text].
    intros Hall. rewrite <- Hall. rewrite !andb_true_r, !andb_assoc. reflexivity.
  - unfold int. rewrite int_acc_app, Ia, Ib. lia.
Qed.

Lemma year_text_digits (t : string) :
  year_text t = true -> all_chars isdigit t = true.
Proof.
  destruct t as [|a [|b [|c [|e [|]]]]]; cbn [year_text all_chars]; try discriminate.
  rewrite !andb_true_iff. tauto.
Qed.

Lemma match_spaces_digits (u : string) :
  all_chars isdigit u = true -> match_spaces u = [].
Proof.
  destruct u as [|c u]; cbn [all_chars match_spaces]; [reflexivity|].
  intros H. apply andb_true_iff in H as [Hc _].
  rewrite (isdigit_not_space c Hc). reflexivity.
Qed.

Lemma match_spaces_ext (t p : string) :
  all_chars isdigit t = true ->
  match_spaces (p ++ t) = map (fun r => (r ++ t)%string) (match_spaces p).
Proof.
  intros Ht. induction p as [|c p IH]; cbn [String.append match_spaces].
  - rewrite (match_spaces_digits t Ht). reflexivity.
  - destruct (isspace c); [|reflexivity].
    rewrite IH, map_app. reflexivity.
Qed.

Lemma any_token_within (ts : list token) :
  forallb (token_within (fun _ => true)) ts = true.
Proof.
  assert (Hc : forall p, class_within (fun _ => true) p = true).
  { intros p. unfold class_within. apply forallb_forall. intros c _.
    apply implb_true_r. }
  apply forallb_forall. intros t _. destruct t as [name alts| |c]; cbn [token_within]; auto.
  apply forallb_forall. intros a _. apply forallb_forall. intros p _. apply Hc.
Qed.

Lemma match_tokens_suffix (ts : list token) (s : string) (g : groups) (r : string) :
  In (g, r) (match_tokens ts s) -> exists m, s = (m ++ r)%string.
Proof.
  intros H.
  destruct (match_tokens_split (fun _ => true) ts (any_token_within ts) s g r H)
    as [m [Hs _]].
  exists m. exact Hs.
Qed.

Lemma match_token_suffix (t : token) (s : string) (g : groups) (r : string) :
  In (g, r) (match_token t s) -> exists m, s = (m ++ r)%string.
Proof.
  intros H.
  assert (Ht : token_within (fun _ => true) t = true).
  { pose proof (any_token_within [t]) as Ha. cbn [forallb] in Ha.
    rewrite andb_true_r in Ha. exact Ha. }
  destruct (match_token_split (fun _ => true) t Ht s g r H) as [m [Hs _]].
  exists m. exact Hs.
Qed.

Lemma digits_suffix (m r : string) :
  all_chars isdigit (m ++ r) = true -> all_chars isdigit r = true.
Proof. rewrite all_chars_app. intros H. apply andb_true_iff in H. tauto. Qed.

Lemma digits_kill (ts : list token) :
  forall u, all_chars isdigit u = true -> match_tokens (ts ++ [TSpaces]) u = [].
Proof.
  induction ts as [|t ts IH]; intros u Hu.
  - cbn [Datatypes.app match_tokens match_token]. rewrite (match_spaces_digits u Hu). reflexivity.
  - cbn [Datatypes.app match_tokens]. apply flat_map_nil_iff. intros [g r] Hin.
    destruct (match_token_suffix t u g r Hin) as [m ->].
    cbn [snd]. rewrite (IH r (digits_suffix m r Hu)). reflexivity.
Qed.

Lemma any_class_within (cls : list charclass) :
  forallb (class_within (fun _ => true)) cls = true.
Proof.
  apply forallb_forall. intros p _. unfold class_within.
  apply forallb_forall. intros c _. apply implb_true_r.
Qed.

Lemma match_classes_ext (t : string) (cls : list charclass) :
  all_chars isdigit t = true ->
  forall p,
    match match_classes cls p with
    | Some (m, r) => match_classes cls (p ++ t) = Some (m, (r ++ t)%string)
    | None =>
        match_classes cls (p ++ t) = None
        \/ exists m u, match_classes cls (p ++ t) = Some (m, u)
                       /\ all_chars isdigit u = true
    end.
Proof.
  intros Ht. induction cls as [|c cls IH]; intros p.
  - reflexivity.
  - destruct p as [|x p].
    + change (match_classes (c :: cls) t = None
              \/ exists m u, match_classes (c :: cls) t = Some (m, u)
                             /\ all_chars isdigit u = true).
      destruct (match_classes (c :: cls) t) as [[m u]|] eqn:E; [right | left; reflexivity].
      exists m, u. split; [reflexivity|].
      destruct (match_classes_split (fun _ => true) (c :: cls)
                  (any_class_within (c :: cls)) t m u E) as [Hs _].
      rewrite Hs in Ht. apply (digits_suffix m u Ht).
    + cbn [match_classes String.append]. destruct (c x); [|left; reflexivity].
      specialize (IH p). destruct (match_classes cls p) as [[m r]|].
      * rewrite IH. reflexivity.
      * destruct IH as [IH|[m [u [IH Hu]]]]; rewrite IH.
        -- left. reflexivity.
        -- right. exists (String x m), u. split; [reflexivity | exact Hu].
Qed.

Lemma match_alts_ext (t : string) (name : ascii) (alts : list (list charclass)) :
  all_chars isdigit t = true ->
  forall p,
    Ext t (map (fun mr => ([(name, fst mr)], snd mr)) (match_alts alts p))
          (map (fun mr => ([(name, fst mr)], snd mr)) (match_alts alts (p ++ t))).
Proof.
  intros Ht p. induction alts as [|a alts IH]; cbn [match_alts map].
  - constructor.
  - pose proof (match_classes_ext t a Ht p) as H.
    destruct (match_classes a p) as [[m r]|].
    + rewrite H. cbn [map fst snd]. apply Ext_keep, IH.
    + destruct H as [H|[m [u [H Hu]]]]; rewrite H.
      * exact IH.
      * cbn [map fst snd]. apply Ext_over; [exact IH | exact Hu].
Qed.

Lemma Ext_map_keep (t : string) (l : list string) :
  Ext t (map (fun r => ([], r)) l) (map (fun r => ([], (r ++ t)%string)) l).
Proof.
  induction l as [|r l IH]; cbn [map]; [constructor | apply Ext_keep, IH].
Qed.

Lemma match_token_ext (t : string) (tok : token) :
  all_chars isdigit t = true ->
  forall p, Ext t (match_token tok p) (match_token tok (p ++ t)).
Proof.
  intros Ht p. destruct tok as [name alts| |c]; cbn [match_token].
  - apply match_alts_ext, Ht.
  - rewrite (match_spaces_ext t p Ht), map_map. apply Ext_map_keep.
  - destruct p as [|x p]; cbn [String.append].
    + destruct t as [|x t]; [constructor|].
      cbn [all_chars] in Ht. apply andb_true_iff in Ht as [_ Ht].
      destruct (ci_char c x); [|constructor].
      apply Ext_over; [constructor | exact Ht].
    + destruct (ci_char c x); [|constructor].
      apply Ext_keep. constructor.
Qed.

Lemma match_tokens_spaces (s : string) :
  match_tokens [TSpaces] s = map (fun r => ([], r)) (match_spaces s).
Proof.
  unfold match_tokens, match_token.
  induction (match_spaces s) as [|r l IH]; [reflexivity|].
  simpl in *. rewrite IH. reflexivity.
Qed.

(** The results of tokens that end with blanks, on a text followed by
    digits: those on the text alone, each leaving the digits as well. *)
Lemma match_tokens_ext (t : string) (ts : list token) :
  all_chars isdigit t = true ->
  forall p,
    match_tokens (ts ++ [TSpaces]) (p ++ t)
    = map (ext t) (match_tokens (ts ++ [TSpaces]) p).
Proof.
  intros Ht. induction ts as [|tok ts IH]; intros p.
  - cbn [Datatypes.app]. rewrite !match_tokens_spaces, (match_spaces_ext t p Ht), !map_map.
    reflexivity.
  - cbn [Datatypes.app match_tokens].
    induction (match_token_ext t tok Ht p) as [|g r l l' _ IHl|g u l l' _ IHl Hu];
      cbn [flat_map].
    + reflexivity.
    + rewrite map_app, IHl. f_equal. cbn [fst snd].
      rewrite (IH r), !map_map. reflexivity.
    + cbn [snd]. rewrite (digits_kill ts u Hu). exact IHl.
Qed.

Lemma match_tokens_app (ts1 ts2 : list token) :
  forall s,
    match_tokens (ts1 ++ ts2) s
    = flat_map (fun gr => map (fun gr' => (fst gr ++ fst gr', snd gr'))
                              (match_tokens ts2 (snd gr)))
               (match_tokens ts1 s).
Proof.
  induction ts1 as [|t ts1 IH]; intros s.
  - cbn [Datatypes.app match_tokens flat_map fst snd]. rewrite app_nil_r.
    rewrite <- (map_id (match_tokens ts2 s)) at 1.
    apply map_ext. intros [g r]. reflexivity.
  - cbn [Datatypes.app match_tokens].
    induction (match_token t s) as [|[g r] l IHl]; cbn [flat_map]; [reflexivity|].
    rewrite flat_map_app, IHl. f_equal. cbn [fst snd]. rewrite (IH r).
    induction (match_tokens ts1 r) as [|[g1 r1] l1 IH1]; cbn [flat_map map]; [reflexivity|].
    rewrite map_app, IH1. f_equal. cbn [fst snd]. rewrite map_map.
    apply map_ext. intros [g2 r2]. cbn [fst snd]. rewrite app_assoc. reflexivity.
Qed.

Lemma append_empty_r (s : string) : (s ++ "")%string = s.
Proof. induction s as [|c s IH]; cbn [String.append]; [reflexivity | rewrite IH; reflexivity]. Qed.

Lemma append_assoc (a b c : string) : ((a ++ b) ++ c)%string = (a ++ (b ++ c))%string.
Proof. induction a as [|x a IH]; cbn [String.append]; [reflexivity | rewrite IH; reflexivity]. Qed.

Lemma year_token_match (t rest : string) :
  year_text t = true ->
  match_token (dir "Y") (t ++ rest) = [([("Y"%char, t)], rest)].
Proof.
  destruct t as [|a [|b [|c [|e [|]]]]]; cbn [year_text]; try discriminate.
  rewrite !andb_true_iff. intros [[[Ha Hb] Hc] He].
  change (dir "Y") with (TGroup "Y" [[isdigit; isdigit; isdigit; isdigit]]).
  cbn [match_token match_alts match_classes String.append].
  rewrite Ha, Hb, Hc, He. reflexivity.
Qed.

Lemma year_tokens_match (t : string) :
  year_text t = true ->
  match_tokens [dir "Y"] t = [([("Y"%char, t)], EmptyString)].
Proof.
  intros Ht. cbn [match_tokens].
  rewrite <- (append_empty_r t) at 1. rewrite (year_token_match t "" Ht).
  reflexivity.
Qed.

Lemma convert_year (yr : option nat) (m d : nat) (t : string) :
  convert_group (Some (mk_fields yr m d)) ("Y"%char, t)
  = Some (mk_fields (Some (int t)) m d).
Proof. reflexivity. Qed.

Lemma strptime_named (fmt : string) (pts : list token) (p t : string) :
  pattern false fmt = Some ((pts ++ [TSpaces]) ++ [dir "Y"]) ->
  year_text t = true ->
  match prefix_status_of pts p with
  | PFail => strptime (p ++ t) fmt = inl NoMatch
  | POk m d =>
      strptime (p ++ t) fmt =
      if valid_date (int t) m d then inr (mk_datetime (int t) m d) else inl OutOfRange
  | POther => True
  end.
Proof.
  intros Hpat Ht. pose proof (year_text_digits t Ht) as Hd.
  unfold prefix_status_of, strptime. rewrite Hpat.
  rewrite (match_tokens_app (pts ++ [TSpaces]) [dir "Y"] (p ++ t)).
  rewrite (match_tokens_ext t pts Hd p).
  destruct (match_tokens (pts ++ [TSpaces]) p) as [|[g r] l]; [reflexivity|].
  destruct r as [|x r]; [|exact I].
  destruct (fold_left convert_group g (Some (mk_fields None 1 1)))
    as [[[yr|] m d]|] eqn:Hfold; try exact I.
  cbn [map ext fst snd flat_map String.append].
  rewrite (year_tokens_match t Ht). cbn [map Datatypes.app fst snd].
  change (nonempty "") with false. cbn iota.
  rewrite fold_left_app, Hfold. cbn [fold_left]. rewrite convert_year.
  cbn [f_year f_month_ f_day].
  destruct (valid_date (int t) m d); reflexivity.
Qed.

Lemma groups_eqb_eq (g1 g2 : groups) : groups_eqb g1 g2 = true -> g1 = g2.
Proof.
  unfold groups_eqb. rewrite andb_true_iff. intros [Hlen Hall].
  apply Nat.eqb_eq in Hlen. revert g2 Hlen Hall.
  induction g1 as [|[n1 v1] g1 IH]; intros [|[n2 v2] g2] Hlen Hall;
    try discriminate; [reflexivity|].
  cbn [combine forallb fst snd] in Hall.
  rewrite !andb_true_iff in Hall. destruct Hall as [[Hn Hv] Hall].
  apply Ascii.eqb_eq in Hn. apply String.eqb_eq in Hv. subst.
  f_equal. apply IH; [simpl in Hlen; lia | exact Hall].
Qed.

Lemma strptime_iso (t : string) (pm pd : bool) (m d : nat) :
  year_text t = true -> iso_rest_ok pm pd m d = true ->
  strptime (t ++ after_year (Iso pm pd) m d) "%Y-%m-%d"
  = if valid_date (int t) m d then inr (mk_datetime (int t) m d) else inl OutOfRange.
Proof.
  intros Ht Hok. unfold iso_rest_ok in Hok.
  assert (Hpat : pattern false "%Y-%m-%d" = Some (dir "Y" :: ISO_REST)) by reflexivity.
  unfold strptime. rewrite Hpat. cbn [match_tokens].
  rewrite (year_token_match t _ Ht). cbn [flat_map fst snd]. rewrite app_nil_r.
  destruct (match_tokens ISO_REST (after_year (Iso pm pd) m d)) as [|[g r] l];
    [discriminate|].
  rewrite !andb_true_iff in Hok. destruct Hok as [[[[Hg Hr] Hm] Hdd] _].
  apply groups_eqb_eq in Hg. apply String.eqb_eq in Hr.
  apply Nat.eqb_eq in Hm. apply Nat.eqb_eq in Hdd. subst g r.
  cbn [map fst snd Datatypes.app]. change (nonempty "") with false. cbn iota.
  change (fold_left convert_group
            [("Y"%char, t); ("m"%char, number pm m); ("d"%char, number pd d)]
            (Some (mk_fields None 1 1)))
    with (Some (mk_fields (Some (int t)) (int (number pm m)) (int (number pd d)))).
  cbn [f_year f_month_ f_day]. rewrite Hm, Hdd.
  destruct (valid_date (int t) m d); reflexivity.
Qed.

Lemma match_classes_prefix_none (cls : list charclass) :
  forall p x, match_classes cls p = None -> List.length cls <= String.length p ->
              match_classes cls (p ++ x) = None.
Proof.
  induction cls as [|c cls IH]; intros p x H Hlen; [discriminate|].
  destruct p as [|a p]; [simpl in Hlen; lia|].
  cbn [match_classes String.append] in *. destruct (c a); [|reflexivity].
  destruct (match_classes cls p) as [[m r]|] eqn:E; [discriminate|].
  rewrite (IH p x E) by (simpl in Hlen; lia). reflexivity.
Qed.

Lemma strptime_iso_fails (p x : string) :
  match_classes [isdigit; isdigit; isdigit; isdigit] p = None ->
  4 <= String.length p ->
  strptime (p ++ x) "%Y-%m-%d" = inl NoMatch.
Proof.
  intros H Hlen.
  assert (Hpat : pattern false "%Y-%m-%d" = Some (dir "Y" :: ISO_REST)) by reflexivity.
  unfold strptime. rewrite Hpat. cbn [match_tokens].
  change (dir "Y") with (TGroup "Y" [[isdigit; isdigit; isdigit; isdigit]]).
  cbn [match_token match_alts].
  rewrite (match_classes_prefix_none _ p x H Hlen). reflexivity.
Qed.

Lemma strip_fixed (s : string) :
  is_space_opt (first_char s) = false -> is_space_opt (last_char s) = false ->
  strip s = s.
Proof.
  intros H1 H2. unfold strip. rewrite lstrip_fixed by exact H1.
  apply rstrip_fixed, H2.
Qed.

Lemma year_text_ends (t : string) :
  year_text t = true ->
  (exists c, first_char t = Some c /\ isspace c = false)
  /\ (exists c, last_char t = Some c /\ isspace c = false).
Proof.
  destruct t as [|a [|b [|c [|e [|]]]]]; cbn [year_text]; try discriminate.
  rewrite !andb_true_iff. intros [[[Ha Hb] Hc] He]. split.
  - exists a. split; [reflexivity | apply isdigit_not_space, Ha].
  - exists e. split; [reflexivity | apply isdigit_not_space, He].
Qed.

Lemma try_named (p t : string) (m d : nat) :
  year_text t = true ->
  first_status NAMED p = POk m d ->
  valid_date (int t) m d = true ->
  strip (p ++ t) = (p ++ t)%string ->
  try_formats ["%d %B %Y"; "%B %d, %Y"; "%d %b %Y"; "%b %d, %Y"] (p ++ t)
  = Some (mk_datetime (int t) m d).
Proof.
  intros Ht Hfirst Hvalid Hs.
  cbn [try_formats]. rewrite Hs.
  cbn [first_status NAMED] in Hfirst.
  pose proof (strptime_named "%d %B %Y" [dir "d"; TSpaces; dir "B"] p t eq_refl Ht) as H2.
  pose proof (strptime_named "%B %d, %Y" [dir "B"; TSpaces; dir "d"; TLit ","] p t
                eq_refl Ht) as H3.
  pose proof (strptime_named "%d %b %Y" [dir "d"; TSpaces; dir "b"] p t eq_refl Ht) as H4.
  pose proof (strptime_named "%b %d, %Y" [dir "b"; TSpaces; dir "d"; TLit ","] p t
                eq_refl Ht) as H5.
  repeat match type of Hfirst with
         | context [prefix_status_of ?pts p] =>
             destruct (prefix_status_of pts p) as [|m' d'|]
         end;
    try discriminate;
    repeat match goal with
           | H : strptime _ _ = _ |- _ => rewrite H; clear H
           | H : True |- _ => clear H
           end;
    try (injection Hfirst as -> ->; rewrite Hvalid; reflexivity).
Qed.

Lemma checks_named :
  forallb (fun sh => all_months_days (named_ok sh)) SHAPES_NAMED = true.
Proof. vm_compute. reflexivity. Qed.

Lemma checks_iso :
  forallb (fun pm => forallb (fun pd => all_months_days (iso_rest_ok pm pd)) [true; false])
          [true; false] = true.
Proof. vm_compute. reflexivity. Qed.

Lemma all_months_days_sound (check : nat -> nat -> bool) (m d : nat) :
  all_months_days check = true -> 1 <= m <= 12 -> 1 <= d <= 31 -> check m d = true.
Proof.
  unfold all_months_days. rewrite forallb_forall. intros H Hm Hd.
  assert (Hin : In m (seq 1 12)) by (apply in_seq; lia).
  specialize (H m Hin). rewrite forallb_forall in H. apply H, in_seq. lia.
Qed.

Lemma named_ok_all (full padded dmy : bool) (m d : nat) :
  1 <= m <= 12 -> 1 <= d <= 31 ->
  named_ok (if dmy then DayMonthYear full padded else MonthDayYear full padded) m d = true.
Proof.
  intros Hm Hd. pose proof checks_named as H. rewrite forallb_forall in H.
  apply all_months_days_sound; [|exact Hm|exact Hd]. apply H.
  destruct dmy, full, padded; simpl; tauto.
Qed.

Lemma iso_rest_ok_all (pm pd : bool) (m d : nat) :
  1 <= m <= 12 -> 1 <= d <= 31 -> iso_rest_ok pm pd m d = true.
Proof.
  intros Hm Hd. pose proof checks_iso as H. rewrite forallb_forall in H.
  assert (Hpm : In pm [true; false]) by (destruct pm; simpl; tauto).
  assert (Hpd : In pd [true; false]) by (destruct pd; simpl; tauto).
  specialize (H pm Hpm). rewrite forallb_forall in H. specialize (H pd Hpd).
  apply all_months_days_sound; assumption.
Qed.

Lemma valid_date_bounds (y m d : nat) :
  valid_date y m d = true -> y < 100 * 100 /\ 1 <= m <= 12 /\ 1 <= d <= 31.
Proof.
  unfold valid_date. rewrite !andb_true_iff, !Nat.leb_le.
  intros [[[[[Hy1 Hy2] Hm1] Hm2] Hd1] Hd2].
  pose proof (days_in_month_le y m). repeat split; try lia.
  apply Nat.lt_succ_r in Hy2. exact Hy2.
Qed.

Lemma round_trip_named (sh : shape) (y m d : nat) :
  named_ok sh m d = true -> after_year sh m d = EmptyString ->
  valid_date y m d = true ->
  parse_post_date (render sh y m d) = Some (mk_datetime y m d).
Proof.
  intros Hok Hafter Hvalid.
  destruct (valid_date_bounds y m d Hvalid) as [Hy _].
  destruct (pad4_facts y Hy) as [Ht [Hint _]].
  unfold named_ok in Hok. rewrite !andb_true_iff in Hok.
  destruct Hok as [[[Hfirst Hlen] Hnoiso] Hfc].
  set (p := before_year sh m d) in *. set (t := pad4 y) in *.
  assert (Hr : render sh y m d = (p ++ t)%string).
  { unfold render. fold p t. rewrite Hafter, append_empty_r. reflexivity. }
  rewrite Hr.
  destruct (first_status NAMED p) as [|m' d'|] eqn:Hst; try discriminate.
  apply andb_true_iff in Hfirst as [Hm' Hd'].
  apply Nat.eqb_eq in Hm'. apply Nat.eqb_eq in Hd'. subst m' d'.
  apply Nat.leb_le in Hlen. apply negb_true_iff in Hfc.
  destruct (match_classes [isdigit; isdigit; isdigit; isdigit] p) eqn:Hcls;
    [discriminate|].
  assert (Hs : strip (p ++ t) = (p ++ t)%string).
  { destruct (year_text_ends t Ht) as [_ [c [Hl Hc]]].
    apply strip_fixed.
    - rewrite first_char_app. destruct p as [|a p']; [simpl in Hlen; lia|]. exact Hfc.
    - rewrite last_char_app, Hl. exact Hc. }
  unfold parse_post_date, FORMATS. cbn [try_formats]. rewrite Hs.
  rewrite (strptime_iso_fails p t Hcls Hlen).
  rewrite <- Hint in Hvalid.
  pose proof (try_named p t m d Ht Hst Hvalid Hs) as H.
  cbn [try_formats] in H. rewrite Hs in H. rewrite Hint in H. exact H.
Qed.

Lemma round_trip_iso (pm pd : bool) (y m d : nat) :
  valid_date y m d = true ->
  parse_post_date (render (Iso pm pd) y m d) = Some (mk_datetime y m d).
Proof.
  intros Hvalid.
  destruct (valid_date_bounds y m d Hvalid) as [Hy [Hm Hd]].
  destruct (pad4_facts y Hy) as [Ht [Hint _]].
  pose proof (iso_rest_ok_all pm pd m d Hm Hd) as Hok.
  set (t := pad4 y) in *.
  assert (Hr : render (Iso pm pd) y m d = (t ++ after_year (Iso pm pd) m d)%string)
    by reflexivity.
  rewrite Hr.
  assert (Hs : strip (t ++ after_year (Iso pm pd) m d)
               = (t ++ after_year (Iso pm pd) m d)%string).
  { destruct (year_text_ends t Ht) as [[c [Hf Hc]] _].
    apply strip_fixed.
    - rewrite first_char_app, Hf. exact Hc.
    - rewrite last_char_app. unfold iso_rest_ok in Hok.
      destruct (match_tokens ISO_REST (after_year (Iso pm pd) m d)) as [|[g r] l];
        [discriminate|].
      apply andb_true_iff in Hok as [_ Hok].
      destruct (last_char (after_year (Iso pm pd) m d)); [|discriminate].
      apply negb_true_iff in Hok. exact Hok. }
  unfold parse_post_date, FORMATS. cbn [try_formats]. rewrite Hs.
  rewrite (strptime_iso t pm pd m d Ht Hok), Hint, Hvalid. reflexivity.
Qed.

End RoundTrip.

(** X14. Every date of the calendar, written in any of the shapes
    YYYY-MM-DD, DD Month YYYY, Month DD, YYYY, DD Mon YYYY and Mon DD, YYYY
    (year with four digits, month and day numbers with or without a leading
    zero, English month names), is read back by [parse_post_date] as that
    date. *)
Theorem parse_post_date_round_trip (sh : shape) (y m d : nat) :
  valid_date y m d = true ->
  parse_post_date (render sh y m d) = Some (mk_datetime y m d).
Proof.
  intros Hvalid. destruct (valid_date_bounds y m d Hvalid) as [_ [Hm Hd]].
  destruct sh as [pm pd|full padded|full padded].
  - apply round_trip_iso, Hvalid.
  - apply round_trip_named; [|reflexivity|exact Hvalid].
    apply (named_ok_all full padded true m d Hm Hd).
  - apply round_trip_named; [|reflexivity|exact Hvalid].
    apply (named_ok_all full padded false m d Hm Hd).
Qed.

(** The witness of X14: the leap day of 2024 in two shapes. *)
Lemma parse_post_date_round_trip_witness :
  parse_post_date "29 February 2024" = Some (mk_datetime 2024 2 29)
  /\ parse_post_date "2024-2-29" = Some (mk_datetime 2024 2 29).
Proof.
  split.
  - exact (parse_post_date_round_trip (DayMonthYear true false) 2024 2 29 eq_refl).
  - exact (parse_post_date_round_trip (Iso false false) 2024 2 29 eq_refl).
Defined.

(** ** The latest date and the order of the records *)

Section OrderFacts.

Lemma dt_antisym (a b : datetime) :
  dt_gtb a b = false -> dt_gtb b a = false -> a = b.
Proof.
  unfold dt_gtb. intros H1 H2.
  apply dt_ltb_false in H1. apply dt_ltb_false in H2.
  unfold dt_lt in *. destruct a as [ya ma da], b as [yb mb db]. simpl in *.
  assert (ya = yb) by lia. assert (ma = mb) by lia. assert (da = db) by lia.
  subst. reflexivity.
Qed.

(** The date [select] ends with: none when no titled record has a date that
    parses, else the latest of those dates. *)
Lemma latest_date_is_max (posts : list post) :
  match latest_date (select posts) with
  | None => none_parsed posts
  | Some d =>
      (exists p, In p posts /\ truthy (title p) = true /\ parsed_date p = Some d)
      /\ forall q dq, In q posts -> truthy (title q) = true ->
                      parsed_date q = Some dq -> dt_gtb dq d = false
  end.
Proof.
  destruct (select_invariant posts) as [[Hd Hn]|[i [p [d [Hi [Ht [Hp [_ [Hld Hmax]]]]]]]]].
  - rewrite Hd. exact Hn.
  - rewrite Hld. split.
    + exists p. split; [apply (nth_error_In _ _ Hi) | auto].
    + intros q dq Hin Hq Hdq. apply In_nth_error in Hin as [j Hj].
      apply (Hmax j q dq Hj Hq Hdq).
Qed.

End OrderFacts.

(** X15. The latest date the loop ends with does not depend on the order of
    the records, nor on how often a record occurs: two result sets with the
    same records end with the same date (the title can differ, among records
    of that date). *)
Theorem latest_date_order_free (posts posts' : list post) :
  (forall p, In p posts <-> In p posts') ->
  latest_date (select posts) = latest_date (select posts').
Proof.
  intros Hsame.
  pose proof (latest_date_is_max posts) as H.
  pose proof (latest_date_is_max posts') as H'.
  destruct (latest_date (select posts)) as [d|];
    destruct (latest_date (select posts')) as [d'|]; try reflexivity.
  - destruct H as [[p [Hin [Ht Hp]]] Hmax].
    destruct H' as [[p' [Hin' [Ht' Hp']]] Hmax'].
    f_equal. apply dt_antisym.
    + apply (Hmax' p d (proj1 (Hsame p) Hin) Ht Hp).
    + apply (Hmax p' d' (proj2 (Hsame p') Hin') Ht' Hp').
  - destruct H as [[p [Hin [Ht Hp]]] _].
    rewrite (H' p (proj1 (Hsame p) Hin) Ht) in Hp. discriminate.
  - destruct H' as [[p' [Hin' [Ht' Hp']]] _].
    rewrite (H p' (proj2 (Hsame p') Hin') Ht') in Hp'. discriminate.
Qed.

(** The witness of X15: two records of the same day in both orders; the date
    is the same, the title is not. *)
Lemma latest_date_order_free_witness :
  latest_date (select [mk_post (Some "A") (Some "2024-01-05") None;
                       mk_post (Some "B") (Some "5 January 2024") None])
  = latest_date (select [mk_post (Some "B") (Some "5 January 2024") None;
                         mk_post (Some "A") (Some "2024-01-05") None]).
Proof.
  apply latest_date_order_free. intros p. simpl. tauto.
Defined.

(** ** Dates the calendar lacks *)

Section Rejection.

Import Str.

Lemma checks_named_all :
  forallb (fun sh => all_months_days (named_all_ok sh)) SHAPES_NAMED = true.
Proof. vm_compute. reflexivity. Qed.

Lemma checks_iso_nospace :
  forallb (fun pm => forallb (fun pd => all_months_days (iso_nospace pm pd)) [true; false])
          [true; false] = true.
Proof. vm_compute. reflexivity. Qed.

Lemma nospace_suffix (m r : string) :
  all_chars nospace (m ++ r) = true -> all_chars nospace r = true.
Proof. rewrite all_chars_app. intros H. apply andb_true_iff in H. tauto. Qed.

Lemma match_spaces_nospace (u : string) :
  all_chars nospace u = true -> match_spaces u = [].
Proof.
  destruct u as [|c u]; cbn [all_chars match_spaces]; [reflexivity|].
  intros H. apply andb_true_iff in H as [Hc _].
  unfold nospace in Hc. apply negb_true_iff in Hc. rewrite Hc. reflexivity.
Qed.

Lemma nospace_kill (ts : list token) :
  forall u, all_chars nospace u = true -> match_tokens (ts ++ [TSpaces]) u = [].
Proof.
  induction ts as [|t ts IH]; intros u Hu.
  - simpl. rewrite (match_spaces_nospace u Hu). reflexivity.
  - cbn [Datatypes.app match_tokens]. apply flat_map_nil_iff. intros [g r] Hin.
    destruct (match_token_suffix t u g r Hin) as [m ->].
    cbn [snd]. rewrite (IH r (nospace_suffix m r Hu)). reflexivity.
Qed.

Lemma strptime_nospace (fmt : string) (pts : list token) (s : string) :
  pattern false fmt = Some ((pts ++ [TSpaces]) ++ [dir "Y"]) ->
  all_chars nospace s = true ->
  strptime s fmt = inl NoMatch.
Proof.
  intros Hpat Hs. unfold strptime. rewrite Hpat.
  rewrite (match_tokens_app (pts ++ [TSpaces]) [dir "Y"] s), (nospace_kill pts s Hs).
  reflexivity.
Qed.

Lemma digits_nospace (t : string) :
  all_chars isdigit t = true -> all_chars nospace t = true.
Proof.
  induction t as [|c t IH]; cbn [all_chars]; [reflexivity|].
  intros H. apply andb_true_iff in H as [Hc Ht].
  unfold nospace at 1. rewrite (isdigit_not_space c Hc), (IH Ht). reflexivity.
Qed.

Lemma named_statuses (sh : shape) (m d : nat) (fmt : string) (pts : list token) :
  named_all_ok sh m d = true -> In (fmt, pts) NAMED ->
  prefix_status_of pts (before_year sh m d) = PFail
  \/ prefix_status_of pts (before_year sh m d) = POk m d.
Proof.
  unfold named_all_ok. rewrite forallb_forall. intros H Hin.
  specialize (H (fmt, pts) Hin). cbn [snd] in H.
  destruct (prefix_status_of pts (before_year sh m d)) as [|m' d'|];
    [left; reflexivity | right | discriminate].
  apply andb_true_iff in H as [Hm Hd].
  apply Nat.eqb_eq in Hm. apply Nat.eqb_eq in Hd. subst. reflexivity.
Qed.

Lemma strptime_named_invalid (sh : shape) (t : string) (m d : nat)
  (fmt : string) (pts : list token) :
  In (fmt, pts) NAMED ->
  pattern false fmt = Some ((pts ++ [TSpaces]) ++ [dir "Y"]) ->
  named_all_ok sh m d = true -> year_text t = true ->
  valid_date (int t) m d = false ->
  exists e, strptime (before_year sh m d ++ t) fmt = inl e.
Proof.
  intros Hin Hpat Hok Ht Hinv.
  pose proof (strptime_named fmt pts (before_year sh m d) t Hpat Ht) as H.
  destruct (named_statuses sh m d fmt pts Hok Hin) as [Hs|Hs]; rewrite Hs in H.
  - eauto.
  - rewrite Hinv in H. eauto.
Qed.

Lemma named_patterns (fmt : string) (pts : list token) :
  In (fmt, pts) NAMED ->
  pattern false fmt = Some ((pts ++ [TSpaces]) ++ [dir "Y"]).
Proof.
  unfold NAMED. simpl.
  intros [H|[H|[H|[H|[]]]]]; injection H as <- <-; reflexivity.
Qed.

Lemma formats_cases (fmt : string) :
  In fmt FORMATS -> fmt = "%Y-%m-%d" \/ exists pts, In (fmt, pts) NAMED.
Proof.
  unfold FORMATS, NAMED. simpl.
  intros [<-|[<-|[<-|[<-|[<-|[]]]]]]; [left; reflexivity | right ..];
    eexists; eauto 6.
Qed.

Lemma named_all_ok_all (full padded dmy : bool) (m d : nat) :
  1 <= m <= 12 -> 1 <= d <= 31 ->
  named_all_ok (if dmy then DayMonthYear full padded else MonthDayYear full padded) m d
  = true.
Proof.
  intros Hm Hd. pose proof checks_named_all as H. rewrite forallb_forall in H.
  apply all_months_days_sound; [|exact Hm|exact Hd]. apply H.
  destruct dmy, full, padded; simpl; tauto.
Qed.

Lemma iso_nospace_all (pm pd : bool) (m d : nat) :
  1 <= m <= 12 -> 1 <= d <= 31 -> iso_nospace pm pd m d = true.
Proof.
  intros Hm Hd. pose proof checks_iso_nospace as H. rewrite forallb_forall in H.
  assert (Hpm : In pm [true; false]) by (destruct pm; simpl; tauto).
  assert (Hpd : In pd [true; false]) by (destruct pd; simpl; tauto).
  specialize (H pm Hpm). rewrite forallb_forall in H. specialize (H pd Hpd).
  apply all_months_days_sound; assumption.
Qed.

Lemma reject_named (sh : shape) (y m d : nat) :
  named_ok sh m d = true -> named_all_ok sh m d = true ->
  after_year sh m d = EmptyString ->
  y < 100 * 100 -> valid_date y m d = false ->
  parse_post_date (render sh y m d) = None.
Proof.
  intros Hok Hall Hafter Hy Hinv.
  destruct (pad4_facts y Hy) as [Ht [Hint _]].
  unfold named_ok in Hok. rewrite !andb_true_iff in Hok.
  destruct Hok as [[[_ Hlen] Hnoiso] Hfc].
  set (p := before_year sh m d) in *. set (t := pad4 y) in *.
  assert (Hr : render sh y m d = (p ++ t)%string).
  { unfold render. fold p t. rewrite Hafter, append_empty_r. reflexivity. }
  rewrite Hr. apply Nat.leb_le in Hlen. apply negb_true_iff in Hfc.
  destruct (match_classes [isdigit; isdigit; isdigit; isdigit] p) eqn:Hcls;
    [discriminate|].
  assert (Hs : strip (p ++ t) = (p ++ t)%string).
  { destruct (year_text_ends t Ht) as [_ [c [Hl Hc]]].
    apply strip_fixed.
    - rewrite first_char_app. destruct p as [|a p']; [simpl in Hlen; lia|]. exact Hfc.
    - rewrite last_char_app, Hl. exact Hc. }
  apply try_formats_none. intros fmt Hin. rewrite Hs.
  destruct (formats_cases fmt Hin) as [->|[pts Hpts]].
  - rewrite (strptime_iso_fails p t Hcls Hlen). eauto.
  - rewrite <- Hint in Hinv.
    apply (strptime_named_invalid sh t m d fmt pts Hpts (named_patterns fmt pts Hpts)
             Hall Ht Hinv).
Qed.

Lemma reject_iso (pm pd : bool) (y m d : nat) :
  1 <= m <= 12 -> 1 <= d <= 31 ->
  y < 100 * 100 -> valid_date y m d = false ->
  parse_post_date (render (Iso pm pd) y m d) = None.
Proof.
  intros Hm Hd Hy Hinv.
  destruct (pad4_facts y Hy) as [Ht [Hint Hdig]].
  pose proof (iso_rest_ok_all pm pd m d Hm Hd) as Hok.
  pose proof (iso_nospace_all pm pd m d Hm Hd) as Hns.
  set (t := pad4 y) in *.
  assert (Hr : render (Iso pm pd) y m d = (t ++ after_year (Iso pm pd) m d)%string)
    by reflexivity.
  rewrite Hr.
  assert (Hs : strip (t ++ after_year (Iso pm pd) m d)
               = (t ++ after_year (Iso pm pd) m d)%string).
  { destruct (year_text_ends t Ht) as [[c [Hf Hc]] _].
    apply strip_fixed.
    - rewrite first_char_app, Hf. exact Hc.
    - rewrite last_char_app. unfold iso_rest_ok in Hok.
      destruct (match_tokens ISO_REST (after_year (Iso pm pd) m d)) as [|[g r] l];
        [discriminate|].
      apply andb_true_iff in Hok as [_ Hok].
      destruct (last_char (after_year (Iso pm pd) m d)); [|discriminate].
      apply negb_true_iff in Hok. exact Hok. }
  apply try_formats_none. intros fmt Hin. rewrite Hs.
  destruct (formats_cases fmt Hin) as [->|[pts Hpts]].
  - rewrite (strptime_iso t pm pd m d Ht Hok), Hint, Hinv. eauto.
  - rewrite (strptime_nospace fmt pts _ (named_patterns fmt pts Hpts)); [eauto|].
    rewrite all_chars_app, (digits_nospace t Hdig). exact Hns.
Qed.

End Rejection.

(** X16. A day the calendar lacks (30 February, 31 April, 29 February of a
    year that is not a leap year, any day of the year 0000), written in any
    of the five shapes, has no date: it is neither moved to a neighbouring
    day nor read as another date. *)
Theorem parse_post_date_rejects_invalid (sh : shape) (y m d : nat) :
  y <= 9999 -> 1 <= m <= 12 -> 1 <= d <= 31 ->
  valid_date y m d = false ->
  parse_post_date (render sh y m d) = None.
Proof.
  intros Hy Hm Hd Hinv. apply Nat.lt_succ_r in Hy.
  change (y < 100 * 100) in Hy.
  destruct sh as [pm pd|full padded|full padded].
  - apply reject_iso; assumption.
  - apply reject_named; try assumption; try reflexivity.
    + apply (named_ok_all full padded true m d Hm Hd).
    + apply (named_all_ok_all full padded true m d Hm Hd).
  - apply reject_named; try assumption; try reflexivity.
    + apply (named_ok_all full padded false m d Hm Hd).
    + apply (named_all_ok_all full padded false m d Hm Hd).
Qed.

(** The witness of X16: 30 February 2024 and 29 February 2023. *)
Lemma parse_post_date_rejects_invalid_witness :
  parse_post_date "30 February 2024" = None
  /\ parse_post_date "2023-02-29" = None.
Proof.
  split.
  - apply (parse_post_date_rejects_invalid (DayMonthYear true false) 2024 2 30);
      [apply Nat.leb_le; reflexivity | lia | lia | reflexivity].
  - apply (parse_post_date_rejects_invalid (Iso true true) 2023 2 29);
      [apply Nat.leb_le; reflexivity | lia | lia | reflexivity].
Defined.
